(** * HealthMindCoach: the orchestration core and two front-end helpers

    A shallow embedding of
    - the Python snippets of the project description ([robust_json_parser],
      [get_user_profile] / [update_user_profile], the Knowledge Council's
      fan-out aggregation loop, [generate_plan]), and
    - the JavaScript helpers [parseListToStructured] (note formatter) and the
      BMI computation of [UserProfileCard].

    Conventions.
    - A Python or JavaScript string is a [string]; its characters are code
      units below 256.
    - A Python call that may raise is a value of [outcome]; a [try]/[except]
      is a [match] on it that lets the classes it does not name pass.
    - Library functions whose code is not part of the project
      ([json.loads], [Number.prototype.toFixed], string-to-number
      conversion) are section variables. *)

From Stdlib Require Import Ascii String Floats.
From stdpp Require Import gmap strings list fin_maps.

Set Warnings "-inexact-float,-register-all".
Local Open Scope string_scope.

(* ===================================================================== *)
(** ** Characters and strings *)
(* ===================================================================== *)

Module Str.

Definition code (c : ascii) : N := N_of_ascii c.

Definition eqc (a b : ascii) : bool := Ascii.eqb a b.

Definition is_empty (s : string) : bool :=
  match s with EmptyString => true | String _ _ => false end.

(** Python's and JavaScript's truthiness of a string. *)
Definition truthy (s : string) : bool := negb (is_empty s).

Fixpoint all (p : ascii -> bool) (s : string) : bool :=
  match s with
  | EmptyString => true
  | String c r => p c && all p r
  end.

Fixpoint any (p : ascii -> bool) (s : string) : bool :=
  match s with
  | EmptyString => false
  | String c r => p c || any p r
  end.

Fixpoint drop_while (p : ascii -> bool) (s : string) : string :=
  match s with
  | EmptyString => EmptyString
  | String c r => if p c then drop_while p r else s
  end.

(** Removes the longest suffix whose characters all satisfy [p]. *)
Fixpoint drop_while_end (p : ascii -> bool) (s : string) : string :=
  match s with
  | EmptyString => EmptyString
  | String c r =>
      let r' := drop_while_end p r in
      if p c && is_empty r' then EmptyString else String c r'
  end.

(** [s.split(sep)] for a one-character separator: one more piece than
    there are separators. *)
Fixpoint split (sep : ascii) (s : string) : list string :=
  match s with
  | EmptyString => [EmptyString]
  | String c r =>
      if eqc c sep then EmptyString :: split sep r
      else match split sep r with
           | [] => [String c EmptyString]
           | piece :: pieces => String c piece :: pieces
           end
  end.

End Str.

(* ===================================================================== *)
(** ** A backtracking matcher for the regular expressions of the project *)
(* ===================================================================== *)

(** The three patterns of the project (the brace pattern of the JSON
    extractor, the numbered-point pattern and the bold-title pattern of the
    note formatter) are sequences of character classes, each taken once or
    under a greedy star or plus, with capture groups that do not nest and
    an optional end anchor.  [run] tries the alternatives in the order of a
    backtracking engine: a greedy quantifier first takes as many characters
    as it can and gives them back one at a time. *)

Module Regex.

Inductive quant := One | Star | Plus.

Inductive item :=
| Cls (p : ascii -> bool) (q : quant)
| Open
| Close
| Eos.

(** Closed groups in order, and the text of the group being captured. *)
Record caps := { closed : list string; cur : option string }.

Definition no_caps : caps := {| closed := []; cur := None |}.

Definition push (c : ascii) (st : caps) : caps :=
  {| closed := closed st;
     cur := match cur st with
            | Some g => Some (g ++ String c EmptyString)
            | None => None
            end |}.

Definition open (st : caps) : caps :=
  {| closed := closed st; cur := Some EmptyString |}.

Definition close (st : caps) : caps :=
  {| closed := closed st ++ match cur st with Some g => [g] | None => [] end;
     cur := None |}.

(** Greedy iteration of the class [p], then the continuation [k]. *)
Fixpoint star (p : ascii -> bool) (k : string -> caps -> option (list string))
    (s : string) (st : caps) : option (list string) :=
  match s with
  | String c r =>
      if p c then
        match star p k r (push c st) with
        | Some g => Some g
        | None => k s st
        end
      else k s st
  | EmptyString => k s st
  end.

(** Matches the items at the start of [s]; the groups on success. *)
Fixpoint run (its : list item) (s : string) (st : caps) : option (list string) :=
  match its with
  | [] => Some (closed st)
  | Eos :: rest => if Str.is_empty s then run rest s st else None
  | Open :: rest => run rest s (open st)
  | Close :: rest => run rest s (close st)
  | Cls p One :: rest =>
      match s with
      | String c r => if p c then run rest r (push c st) else None
      | EmptyString => None
      end
  | Cls p Star :: rest => star p (run rest) s st
  | Cls p Plus :: rest =>
      match s with
      | String c r => if p c then star p (run rest) r (push c st) else None
      | EmptyString => None
      end
  end.

(** A pattern anchored at the start of the subject ([^...]). *)
Definition match_start (its : list item) (s : string) : option (list string) :=
  run its s no_caps.

(** An unanchored search: the leftmost start position that matches. *)
Fixpoint search (its : list item) (s : string) : option (list string) :=
  match run its s no_caps with
  | Some g => Some g
  | None =>
      match s with
      | String _ r => search its r
      | EmptyString => None
      end
  end.

Definition chr (c : ascii) : ascii -> bool := Str.eqc c.
Definition any_char : ascii -> bool := fun _ => true.

End Regex.

(* ===================================================================== *)
(** ** The Python side: values, exceptions, the orchestration core *)
(* ===================================================================== *)

Module Py.

(** The exception classes that occur in the snippets; every one of them is
    a subclass of [Exception]. *)
Inductive exn :=
| JSONDecodeError
| AttributeError
| IndexError
| KeyError
| RecursionError
| OtherException (name : string).

Inductive outcome (A : Type) :=
| Returned (a : A)
| Raised (e : exn).
Arguments Returned {A} a.
Arguments Raised {A} e.

Definition is_Exception (e : exn) : bool := true.

Definition is_JSONDecodeError (e : exn) : bool :=
  match e with JSONDecodeError => true | _ => false end.

Definition is_JSONDecodeError_or_AttributeError (e : exn) : bool :=
  match e with JSONDecodeError | AttributeError => true | _ => false end.

(** [try: body / except <classes>: pass].  The body yields [Some v] when it
    executes [return v] and [None] when control reaches its end; a caught
    exception also lets control fall through. *)
Definition try_pass {A} (body : outcome (option A)) (catches : exn -> bool)
    : outcome (option A) :=
  match body with
  | Returned r => Returned r
  | Raised e => if catches e then Returned None else Raised e
  end.

(** What [json.loads] produces, and any other [Any]-typed datum. *)
Inductive json :=
| JNull
| JBool (b : bool)
| JInt (z : Z)
| JFloat (f : float)
| JStr (s : string)
| JArr (elems : list json)
| JObj (fields : list (string * json)).

Definition empty_dict : json := JObj [].

(** [v == s] for a string literal [s]. *)
Definition eq_str (v : json) (s : string) : bool :=
  match v with
  | JStr t => String.eqb t s
  | _ => false
  end.

(** *** Structured Extractor *)

(** The pattern of the extractor's second attempt: group 1 spans an
    opening brace, any characters (DOTALL), a closing brace. *)
Definition brace_pattern : list Regex.item :=
  [Regex.Open;
   Regex.Cls (Regex.chr "{") Regex.One;
   Regex.Cls Regex.any_char Regex.Star;
   Regex.Cls (Regex.chr "}") Regex.One;
   Regex.Close].

(** [re.search(pattern, text, re.DOTALL)]: the groups of the match. *)
Definition re_search (pattern : list Regex.item) (text : string)
    : option (list string) :=
  Regex.search pattern text.

(** [match.group(1)]. *)
Definition group1 (m : list string) : outcome string :=
  match m with
  | g :: _ => Returned g
  | [] => Raised IndexError
  end.

Section Extractor.

(** [json.loads] on a [str]. *)
Variable json_loads : string -> outcome json.

Definition first_attempt (text : string) : outcome (option json) :=
  match json_loads text with
  | Returned v => Returned (Some v)
  | Raised e => Raised e
  end.

Definition second_attempt (text : string) : outcome (option json) :=
  match re_search brace_pattern text with
  | Some m =>
      match group1 m with
      | Returned json_str =>
          match json_loads json_str with
          | Returned v => Returned (Some v)
          | Raised e => Raised e
          end
      | Raised e => Raised e
      end
  | None => Returned None
  end.

Definition robust_json_parser (text : string) : outcome json :=
  match try_pass (first_attempt text) is_JSONDecodeError with
  | Returned (Some v) => Returned v
  | Raised e => Raised e
  | Returned None =>
      match try_pass (second_attempt text)
              is_JSONDecodeError_or_AttributeError with
      | Returned (Some v) => Returned v
      | Raised e => Raised e
      | Returned None => Returned empty_dict
      end
  end.

End Extractor.

(** A decoder for tests: it accepts the two documents of an empty object
    and of an empty array and rejects everything else with
    [JSONDecodeError]. *)
Definition json_loads_empty_only (s : string) : outcome json :=
  if String.eqb s "{}" then Returned (JObj [])
  else if String.eqb s "[]" then Returned (JArr [])
  else Raised JSONDecodeError.

(** The substring from which the second attempt decodes. *)
Definition brace_candidate (text : string) : option string :=
  match re_search brace_pattern text with
  | Some (g :: _) => Some g
  | _ => None
  end.

(** The spec's wording, for comparison: a text whose braces are balanced
    (every closing brace closes an open one, none is left open). *)
Fixpoint balanced_from (depth : nat) (s : string) : bool :=
  match s with
  | EmptyString => Nat.eqb depth 0
  | String c r =>
      if Str.eqc c "{" then balanced_from (S depth) r
      else if Str.eqc c "}" then
        match depth with
        | O => false
        | S d => balanced_from d r
        end
      else balanced_from depth r
  end.

Definition balanced_braces (s : string) : bool := balanced_from 0 s.

(** *** Profile store *)

(** [user_profiles: Dict[str, Dict[str, Any]]], threaded explicitly. *)
Definition falsy_id (user_id : option string) : bool :=
  match user_id with
  | None => true
  | Some s => Str.is_empty s
  end.

Definition get_user_profile (user_id : option string)
    (user_profiles : gmap string (gmap string json))
    : gmap string json * gmap string (gmap string json) :=
  match user_id with
  | Some uid =>
      if Str.is_empty uid then (∅, user_profiles)
      else (default ∅ (user_profiles !! uid), user_profiles)
  | None => (∅, user_profiles)
  end.

Definition update_user_profile (user_id : option string)
    (new_data : gmap string json)
    (user_profiles : gmap string (gmap string json))
    : gmap string json * gmap string (gmap string json) :=
  match user_id with
  | Some uid =>
      if Str.is_empty uid then (new_data, user_profiles)
      else
        let user_profiles' := <[uid := new_data]> user_profiles in
        (default ∅ (user_profiles' !! uid), user_profiles')
  | None => (new_data, user_profiles)
  end.

(** *** Knowledge Council *)

(** The fields of an expert's structured output that the council reads. *)
Record ExpertOutput := {
  title : string;
  content : string;
  subtopics : list (gmap string string);
  references : list string;
  disclaimers : list string
}.

(** The dictionary with the keys title, content and subtopics that the
    loop stores per expert. *)
Record CoreFields := {
  core_title : string;
  core_content : string;
  core_subtopics : list (gmap string string)
}.

Definition core_of (result : ExpertOutput) : CoreFields :=
  {| core_title := title result;
     core_content := content result;
     core_subtopics := subtopics result |}.

(** The three accumulators of the loop. *)
Record Bundle := {
  expert_responses : gmap string CoreFields;
  all_references : list string;
  all_disclaimers : list string
}.

Definition empty_bundle : Bundle :=
  {| expert_responses := ∅; all_references := []; all_disclaimers := [] |}.

(** Truthiness of a list. *)
Definition nonempty {A} (l : list A) : bool :=
  match l with [] => false | _ :: _ => true end.

(** The body of the [try]: [future.result()] hands over the value of the
    future or raises its exception; nothing is stored before it. *)
Definition try_body (expert_name : string) (future : outcome ExpertOutput)
    (acc : Bundle) : outcome Bundle :=
  match future with
  | Returned result =>
      Returned
        {| expert_responses :=
             <[expert_name := core_of result]> (expert_responses acc);
           all_references :=
             if nonempty (references result)
             then all_references acc ++ references result
             else all_references acc;
           all_disclaimers :=
             if nonempty (disclaimers result)
             then all_disclaimers acc ++ disclaimers result
             else all_disclaimers acc |}
  | Raised e => Raised e
  end.

(** Modelled from the spec: the body of the handler of the loop is elided
    in the project description (a comment stands in its place); by the
    spec the failed expert is omitted from the bundle and its absence is
    not an error, so the handler leaves the accumulators as they are. *)
Definition handle_error (expert_name : string) (e : exn) (acc : Bundle)
    : outcome Bundle :=
  Returned acc.

(** One iteration: [try: ... except Exception as e: ...]. *)
Definition iteration (future : outcome ExpertOutput) (expert_name : string)
    (acc : Bundle) : outcome Bundle :=
  match try_body expert_name future acc with
  | Returned acc' => Returned acc'
  | Raised e =>
      if is_Exception e then handle_error expert_name e acc else Raised e
  end.

(** [for future in future_to_expert]: the dictionary is walked in insertion
    order, which is the order of submission. *)
Fixpoint aggregate (future_to_expert : list (outcome ExpertOutput * string))
    (acc : Bundle) : outcome Bundle :=
  match future_to_expert with
  | [] => Returned acc
  | (future, expert_name) :: rest =>
      match iteration future expert_name acc with
      | Returned acc' => aggregate rest acc'
      | Raised e => Raised e
      end
  end.

Section Dispatch.

Variable ExpertInput : Type.

(** [self.experts]: per name, what [process_query] does on an input. *)
Variable experts : gmap string (ExpertInput -> outcome ExpertOutput).

(** The dictionary comprehension that submits one task per required
    expert; [self.experts[expert]] raises [KeyError] on an unknown
    name, outside of any [try]. *)
Fixpoint submit_all (required_experts : list string)
    (expert_input : ExpertInput)
    : outcome (list (outcome ExpertOutput * string)) :=
  match required_experts with
  | [] => Returned []
  | expert :: rest =>
      match experts !! expert with
      | None => Raised KeyError
      | Some process_query =>
          match submit_all rest expert_input with
          | Returned futures =>
              Returned ((process_query expert_input, expert) :: futures)
          | Raised e => Raised e
          end
      end
  end.

Definition consult (required_experts : list string)
    (expert_input : ExpertInput) : outcome Bundle :=
  match submit_all required_experts expert_input with
  | Returned future_to_expert => aggregate future_to_expert empty_bundle
  | Raised e => Raised e
  end.

End Dispatch.

(** *** The thread pool seen from the loop

    The tasks settle in an order the loop does not control.  A schedule
    lists the indices of the tasks in the order in which they settle;
    [settle] records the outcome of a task in its future, and
    [future.result()] blocks until the future it is called on is
    settled. *)

Definition settle (tasks : list (outcome ExpertOutput * string)) (i : nat)
    (settled : gmap nat (outcome ExpertOutput))
    : gmap nat (outcome ExpertOutput) :=
  match tasks !! i with
  | Some (o, _) => <[i := o]> settled
  | None => settled
  end.

(** [result(k)]: the outcome of future [k] once it is settled, with the
    pool as it is then; [None] when the schedule ends before (the call
    would block for ever). *)
Fixpoint result (tasks : list (outcome ExpertOutput * string)) (k : nat)
    (settled : gmap nat (outcome ExpertOutput)) (schedule : list nat)
    : option (outcome ExpertOutput * gmap nat (outcome ExpertOutput) * list nat) :=
  match settled !! k with
  | Some o => Some (o, settled, schedule)
  | None =>
      match schedule with
      | [] => None
      | i :: schedule' => result tasks k (settle tasks i settled) schedule'
      end
  end.

(** The loop over the futures [k, k+1, ...] of [names], in submission
    order, against a pool that settles along [schedule]. *)
Fixpoint aggregate_in_pool (tasks : list (outcome ExpertOutput * string))
    (k : nat) (names : list string)
    (settled : gmap nat (outcome ExpertOutput)) (schedule : list nat)
    (acc : Bundle) : option (outcome Bundle) :=
  match names with
  | [] => Some (Returned acc)
  | expert_name :: rest =>
      match result tasks k settled schedule with
      | None => None
      | Some (o, settled', schedule') =>
          match iteration o expert_name acc with
          | Returned acc' =>
              aggregate_in_pool tasks (S k) rest settled' schedule' acc'
          | Raised e => Some (Raised e)
          end
      end
  end.

Definition run_in_pool (tasks : list (outcome ExpertOutput * string))
    (schedule : list nat) : option (outcome Bundle) :=
  aggregate_in_pool tasks 0 (map snd tasks) ∅ schedule empty_bundle.

(** *** Plan Generator *)

Section PlanGenerator.

(** The four private generators, each a function of the goal and of the
    user profile. *)
Variable _generate_diet_plan : json -> gmap string json -> json.
Variable _generate_fitness_plan : json -> gmap string json -> json.
Variable _generate_lifestyle_recommendations : json -> gmap string json -> json.
Variable _generate_personalized_notes : json -> gmap string json -> json.

(** [request.get(key, default)]. *)
Definition get_default (request : gmap string json) (key : string)
    (dflt : json) : json :=
  default dflt (request !! key).

Definition plan_type_of (request : gmap string json) : json :=
  get_default request "plan_type" (JStr "general").

Definition goal_of (request : gmap string json) : json :=
  get_default request "goal" (JStr "overall health improvement").

Definition generate_plan (request user_profile : gmap string json)
    : gmap string json :=
  let plan_type := plan_type_of request in
  let goal := goal_of request in
  let plan_components : gmap string json := ∅ in
  let plan_components :=
    if eq_str plan_type "diet" || eq_str plan_type "general"
    then <["diet_plan" := _generate_diet_plan goal user_profile]> plan_components
    else plan_components in
  let plan_components :=
    if eq_str plan_type "fitness" || eq_str plan_type "general"
    then <["fitness_plan" := _generate_fitness_plan goal user_profile]> plan_components
    else plan_components in
  let plan_components :=
    <["lifestyle_recommendations" :=
        _generate_lifestyle_recommendations goal user_profile]> plan_components in
  let plan_components :=
    <["personalized_notes" :=
        _generate_personalized_notes goal user_profile]> plan_components in
  plan_components.

End PlanGenerator.

End Py.

(* ===================================================================== *)
(** ** Reference functions for the statements about the Python side *)
(* ===================================================================== *)

Module PyRef.

Definition is_open (c : ascii) : bool := Str.eqc "{" c.
Definition is_close (c : ascii) : bool := Str.eqc "}" c.

(** The prefix of [s] that ends with its last closing brace. *)
Fixpoint upto_last_close (s : string) : option string :=
  match s with
  | EmptyString => None
  | String c r =>
      match upto_last_close r with
      | Some p => Some (String c p)
      | None => if is_close c then Some (String c EmptyString) else None
      end
  end.

(** From the first opening brace that has a closing brace after it to the
    last closing brace. *)
Fixpoint leftmost_span (s : string) : option string :=
  match s with
  | EmptyString => None
  | String c r =>
      if is_open c then
        match upto_last_close r with
        | Some p => Some (String c p)
        | None => leftmost_span r
        end
      else leftmost_span r
  end.

(** The last two items of the brace pattern. *)
Definition tail_items : list Regex.item :=
  [Regex.Cls (Regex.chr "}") Regex.One; Regex.Close].

(** What the extractor makes of the text it retries on. *)
Definition decode_or_default (json_loads : string -> Py.outcome Py.json)
    (json_str : string) : Py.outcome Py.json :=
  match json_loads json_str with
  | Py.Returned v => Py.Returned v
  | Py.Raised e =>
      if Py.is_JSONDecodeError_or_AttributeError e
      then Py.Returned Py.empty_dict
      else Py.Raised e
  end.

(** The experts whose future holds a value, with that value, in the order
    of submission. *)
Fixpoint answers (future_to_expert : list (Py.outcome Py.ExpertOutput * string))
    : list (string * Py.ExpertOutput) :=
  match future_to_expert with
  | [] => []
  | (Py.Returned result, expert_name) :: rest =>
      (expert_name, result) :: answers rest
  | (Py.Raised _, _) :: rest => answers rest
  end.


(** The effect of one iteration of the loop on the accumulators. *)
Definition absorb (acc : Py.Bundle)
    (entry : Py.outcome Py.ExpertOutput * string) : Py.Bundle :=
  match Py.iteration (fst entry) (snd entry) acc with
  | Py.Returned acc' => acc'
  | Py.Raised _ => acc
  end.

(** The stored fields of the answers, keyed by expert, later over earlier. *)
Definition keyed (l : list (string * Py.ExpertOutput))
    (m : gmap string Py.CoreFields) : gmap string Py.CoreFields :=
  fold_left (fun m a => <[fst a := Py.core_of (snd a)]> m) l m.

(** Every settled future holds the outcome of its task. *)
Definition pool_sound (tasks : list (Py.outcome Py.ExpertOutput * string))
    (settled : gmap nat (Py.outcome Py.ExpertOutput)) : Prop :=
  forall i o, settled !! i = Some o -> exists name, tasks !! i = Some (o, name).

(** Every task from [k] on is settled or due to settle. *)
Definition all_due (tasks : list (Py.outcome Py.ExpertOutput * string))
    (k : nat) (settled : gmap nat (Py.outcome Py.ExpertOutput))
    (schedule : list nat) : Prop :=
  forall i, k <= i < length tasks -> is_Some (settled !! i) \/ i ∈ schedule.


End PyRef.

(* ===================================================================== *)
(** ** The JavaScript side: the note formatter and the profile card *)
(* ===================================================================== *)

Module Js.

(** White space and line terminators of the language, among the code units
    below 256: tab, line feed, vertical tab, form feed, carriage return,
    space, no-break space. *)
Definition is_whitespace (c : ascii) : bool :=
  let n := Str.code c in
  (N.eqb n 9 || N.eqb n 10 || N.eqb n 11 || N.eqb n 12 || N.eqb n 13
   || N.eqb n 32 || N.eqb n 160)%bool.

Definition is_line_terminator (c : ascii) : bool :=
  let n := Str.code c in (N.eqb n 10 || N.eqb n 13)%bool.

(** The class of a backslash-d. *)
Definition is_digit (c : ascii) : bool :=
  let n := Str.code c in (N.leb 48 n && N.leb n 57)%bool.

(** The class of a dot without the s flag. *)
Definition is_dot (c : ascii) : bool := negb (is_line_terminator c).

Definition is_not_colon (c : ascii) : bool := negb (Str.eqc c ":").

(** [s.trim()]. *)
Definition trim (s : string) : string :=
  Str.drop_while_end is_whitespace (Str.drop_while is_whitespace s).

(** The numbered-point pattern: start, group 1 (digits, a dot, white space),
    group 2 (one or more characters of the dot class), end. *)
Definition numbered_pattern : list Regex.item :=
  [Regex.Open;
   Regex.Cls is_digit Regex.Plus;
   Regex.Cls (Regex.chr ".") Regex.One;
   Regex.Cls is_whitespace Regex.Star;
   Regex.Close;
   Regex.Open;
   Regex.Cls is_dot Regex.Plus;
   Regex.Close;
   Regex.Eos].

(** The bold-title pattern: start, two stars, group 1 (characters other than
    a colon), a colon, two stars, white space, group 2 (one or more
    characters of the dot class), end. *)
Definition title_pattern : list Regex.item :=
  [Regex.Cls (Regex.chr "*") Regex.One;
   Regex.Cls (Regex.chr "*") Regex.One;
   Regex.Open;
   Regex.Cls is_not_colon Regex.Plus;
   Regex.Close;
   Regex.Cls (Regex.chr ":") Regex.One;
   Regex.Cls (Regex.chr "*") Regex.One;
   Regex.Cls (Regex.chr "*") Regex.One;
   Regex.Cls is_whitespace Regex.Star;
   Regex.Open;
   Regex.Cls is_dot Regex.Plus;
   Regex.Close;
   Regex.Eos].

(** [s.match(re)] for a pattern anchored at the start, without flags: the
    groups 1, 2, ... of the match, or [None] for null. *)
Definition str_match (s : string) (pattern : list Regex.item)
    : option (list string) :=
  Regex.match_start pattern s.

(** [m[i]] for a group index [i] from 1. *)
Definition group (i : nat) (m : list string) : string :=
  nth (i - 1) m EmptyString.

(** An item of the result; an absent property is [None]. *)
Record Item := {
  number : option string;
  title : option string;
  content : string
}.

(** The body of the [forEach] callback: the item pushed for [line]. *)
Definition item_of_line (line : string) : Item :=
  match str_match line numbered_pattern with
  | Some m =>
      match str_match (group 2 m) title_pattern with
      | Some contentMatch =>
          {| number := Some (trim (group 1 m));
             title := Some (group 1 contentMatch);
             content := trim (group 2 contentMatch) |}
      | None =>
          {| number := Some (trim (group 1 m));
             title := None;
             content := trim (group 2 m) |}
      end
  | None =>
      {| number := None; title := None; content := trim line |}
  end.

Definition newline : ascii := ascii_of_N 10.

(** [listText.split('\n').filter(line => line.trim())]. *)
Definition nonblank_lines (listText : string) : list string :=
  filter (fun line => Is_true (Str.truthy (trim line))) (Str.split newline listText).

(** [parseListToStructured]; [None] is a null or undefined argument. *)
Definition parseListToStructured (listText : option string) : list Item :=
  match listText with
  | None => []
  | Some text =>
      if Str.is_empty text then []
      else
        let lines := nonblank_lines text in
        fold_left (fun result line => (result ++ [item_of_line line])%list) lines []
  end.

(** *** The profile card *)

(** The primitive values a profile property can hold. *)
Inductive value :=
| Undefined
| Null
| Boolean (b : bool)
| Number (f : float)
| Text (s : string).

Definition is_nan (f : float) : bool := negb (PrimFloat.eqb f f).

(** ToBoolean. *)
Definition to_boolean (v : value) : bool :=
  match v with
  | Undefined | Null => false
  | Boolean b => b
  | Number f => negb (PrimFloat.eqb f 0 || is_nan f)
  | Text s => Str.truthy s
  end.

Section ProfileCard.

(** The conversion of a string to a number, and [x.toFixed(digits)]. *)
Variable StringToNumber : string -> float.
Variable toFixed : float -> nat -> string.

(** ToNumber. *)
Definition to_number (v : value) : float :=
  match v with
  | Undefined => PrimFloat.nan
  | Null => 0%float
  | Boolean b => if b then 1%float else 0%float
  | Number f => f
  | Text s => StringToNumber s
  end.

(** [profile.name]: a missing property reads as undefined. *)
Definition prop (profile : gmap string value) (name : string) : value :=
  default Undefined (profile !! name).

(** [profile.weight_lbs && profile.height_inches && profile.height_inches > 0],
    as the [if] reads it. *)
Definition bmi_guard (profile : gmap string value) : bool :=
  to_boolean (prop profile "weight_lbs")
  && (to_boolean (prop profile "height_inches")
      && PrimFloat.ltb 0 (to_number (prop profile "height_inches"))).

(** [profile.height_inches * profile.height_inches]. *)
Definition bmi_divisor (profile : gmap string value) : float :=
  PrimFloat.mul (to_number (prop profile "height_inches"))
                (to_number (prop profile "height_inches")).

Definition bmi_quotient (profile : gmap string value) : float :=
  PrimFloat.div
    (PrimFloat.mul (to_number (prop profile "weight_lbs")) 703)
    (bmi_divisor profile).

(** The variable [bmi] after the [if]: [None] is null. *)
Definition bmi (profile : gmap string value) : option string :=
  if bmi_guard profile then Some (toFixed (bmi_quotient profile) 1) else None.

(** What the component renders, as far as the BMI is concerned: the
    placeholder of an empty profile, or the grid with or without the BMI
    item. *)
Inductive card :=
| EmptyProfile
| ProfileGrid (bmi_item : option string).

Definition UserProfileCard (profile : option (gmap string value)) : card :=
  match profile with
  | None => EmptyProfile
  | Some profile =>
      if Nat.eqb (size profile) 0 then EmptyProfile
      else
        ProfileGrid
          match bmi profile with
          | Some text => if Str.truthy text then Some text else None
          | None => None
          end
  end.

End ProfileCard.

End Js.

(* ===================================================================== *)
(** ** Reference semantics of the patterns, and of a numbered line *)
(* ===================================================================== *)

Module RegexRef.

(** The captures after the characters of [w] have been consumed. *)
Fixpoint pushes (w : string) (st : Regex.caps) : Regex.caps :=
  match w with
  | EmptyString => st
  | String c w' => pushes w' (Regex.push c st)
  end.

(** [s] splits along the items, and the groups of that split are [g]. *)
Fixpoint sem (its : list Regex.item) (s : string) (st : Regex.caps)
    (g : list string) : Prop :=
  match its with
  | [] => g = Regex.closed st
  | Regex.Eos :: rest => s = EmptyString /\ sem rest s st g
  | Regex.Open :: rest => sem rest s (Regex.open st) g
  | Regex.Close :: rest => sem rest s (Regex.close st) g
  | Regex.Cls p Regex.One :: rest =>
      exists c s', s = String c s' /\ p c = true /\
                   sem rest s' (Regex.push c st) g
  | Regex.Cls p Regex.Star :: rest =>
      exists w s', s = w ++ s' /\ Str.all p w = true /\
                   sem rest s' (pushes w st) g
  | Regex.Cls p Regex.Plus :: rest =>
      exists c w s', s = String c (w ++ s') /\ p c = true /\
                     Str.all p w = true /\
                     sem rest s' (pushes w (Regex.push c st)) g
  end.

(** [s] splits along the items (groups left aside). *)
Fixpoint accepts (its : list Regex.item) (s : string) : Prop :=
  match its with
  | [] => True
  | Regex.Eos :: rest => s = EmptyString /\ accepts rest s
  | Regex.Open :: rest => accepts rest s
  | Regex.Close :: rest => accepts rest s
  | Regex.Cls p Regex.One :: rest =>
      exists c s', s = String c s' /\ p c = true /\ accepts rest s'
  | Regex.Cls p Regex.Star :: rest =>
      exists w s', s = w ++ s' /\ Str.all p w = true /\ accepts rest s'
  | Regex.Cls p Regex.Plus :: rest =>
      exists c w s', s = String c (w ++ s') /\ p c = true /\
                     Str.all p w = true /\ accepts rest s'
  end.

End RegexRef.

Module JsRef.

(** A numbered line: digits, a dot, white space, and a remainder that is
    not empty and has no line terminator. *)
Definition numbered (line digits spaces rest : string) : Prop :=
  line = digits ++ String "." (spaces ++ rest) /\
  Str.truthy digits = true /\ Str.all Js.is_digit digits = true /\
  Str.all Js.is_whitespace spaces = true /\
  Str.truthy rest = true /\ Str.all Js.is_dot rest = true.

(** A remainder with a bold title: two stars, a title without colon, a
    colon, two stars, white space, and a body that is not empty and has no
    line terminator. *)
Definition titled (rest heading spaces body : string) : Prop :=
  rest = String "*" (String "*" (heading ++ String ":" (String "*" (String "*"
           (spaces ++ body))))) /\
  Str.truthy heading = true /\ Str.all Js.is_not_colon heading = true /\
  Str.all Js.is_whitespace spaces = true /\
  Str.truthy body = true /\ Str.all Js.is_dot body = true.

(** The BMI item of a rendered card, if it has one. *)
Definition bmi_item_of (c : Js.card) : option string :=
  match c with
  | Js.EmptyProfile => None
  | Js.ProfileGrid bmi_item => bmi_item
  end.

(** A profile with a weight of 150 and a height of 1e-200. *)
Definition tiny_height_profile : gmap string Js.value :=
  <["weight_lbs" := Js.Number 150%float]>
    {["height_inches" := Js.Number 1e-200%float]}.

End JsRef.

(* ===================================================================== *)
(** ** More of the Python side: the agent registry, the relief prompt *)
(* ===================================================================== *)

Module Dict.

(** A dictionary in insertion order: assigning to a key that is present
    replaces the value where it stands, a new key goes to the end. *)
Section WithValues.

Variable V : Type.

Fixpoint set (key : string) (v : V) (d : list (string * V)) : list (string * V) :=
  match d with
  | [] => [(key, v)]
  | (k, x) :: rest =>
      if String.eqb k key then (k, v) :: rest else (k, x) :: set key v rest
  end.

(** [d.get(key)]. *)
Fixpoint get (key : string) (d : list (string * V)) : option V :=
  match d with
  | [] => None
  | (k, x) :: rest => if String.eqb k key then Some x else get key rest
  end.

(** [list(d.keys())]. *)
Definition keys (d : list (string * V)) : list string := map fst d.

End WithValues.

Arguments set {V} key v d.
Arguments get {V} key d.
Arguments keys {V} d.

End Dict.

Module Registry.

Section WithAgents.

(** [BaseAgent], of which the registry reads the name only. *)
Variable Agent : Type.
Variable name : Agent -> string.

(** [self.agents] and what [self.logger] has been given. *)
Record AgentRegistry := {
  agents : list (string * Agent);
  logged : list string
}.

(** [__init__]. *)
Definition init : AgentRegistry := {| agents := []; logged := [] |}.

Definition register (agent : Agent) (self : AgentRegistry) : AgentRegistry :=
  {| agents := Dict.set (name agent) agent (agents self);
     logged := logged self ++ ["Registered agent: " ++ name agent] |}.

Definition get (agent_name : string) (self : AgentRegistry) : option Agent :=
  Dict.get agent_name (agents self).

Definition list_agents (self : AgentRegistry) : list string :=
  Dict.keys (agents self).

(** The registry after the agents of a list have been registered in turn. *)
Definition register_all (l : list Agent) (self : AgentRegistry) : AgentRegistry :=
  fold_left (fun reg agent => register agent reg) l self.

End WithAgents.

Arguments agents {Agent} _.
Arguments logged {Agent} _.
Arguments init {Agent}.
Arguments get {Agent} agent_name self.
Arguments list_agents {Agent} self.

End Registry.

Module Relief.

Definition newline : ascii := ascii_of_N 10.

Definition relevant_fields : list string :=
  ["age"; "activity_level"; "health_conditions"].

(** [k in relevant_fields]. *)
Definition is_relevant (k : string) : bool :=
  existsb (String.eqb k) relevant_fields.

(** [v is not None]. *)
Definition is_not_None (v : Py.json) : bool :=
  match v with Py.JNull => false | _ => true end.

(** The dictionary comprehension over [user_profile.items()]. *)
Definition filtered_profile (user_profile : list (string * Py.json))
    : list (string * Py.json) :=
  List.filter (fun kv => is_relevant (fst kv) && is_not_None (snd kv))
    user_profile.

Section WithDumps.

(** [json.dumps(d, indent=2)]. *)
Variable json_dumps : list (string * Py.json) -> string.

(** The variable [context] of [get_relief_exercises] when the prompt is
    built; [None] is an absent profile. *)
Definition context (user_profile : option (list (string * Py.json))) : string :=
  match user_profile with
  | Some (entry :: entries) =>
      match filtered_profile (entry :: entries) with
      | [] => ""
      | filtered =>
          "User Profile:" ++ String newline (json_dumps filtered)
          ++ String newline (String newline "")
      end
  | _ => ""
  end.

End WithDumps.

End Relief.

Module RegistryRef.

(** What every registry built by registrations satisfies: no key twice,
    and every agent under its own name. *)
Definition well_keyed {Agent : Type} (name : Agent -> string)
    (d : list (string * Agent)) : Prop :=
  NoDup (Dict.keys d) /\
  forall agent_name agent, Dict.get agent_name d = Some agent ->
                           name agent = agent_name.

End RegistryRef.

Module StoreRef.

(** The store after a sequence of updates, each an identifier with the new
    data. *)
Definition after_updates
    (updates : list (option string * gmap string Py.json))
    (user_profiles : gmap string (gmap string Py.json))
    : gmap string (gmap string Py.json) :=
  fold_left (fun store u => (Py.update_user_profile (fst u) (snd u) store).2)
    updates user_profiles.

(** The data of the last update issued under the non-empty identifier
    [uid], after [earlier]. *)
Fixpoint last_write (uid : string)
    (updates : list (option string * gmap string Py.json))
    (earlier : option (gmap string Py.json)) : option (gmap string Py.json) :=
  match updates with
  | [] => earlier
  | (Some id, new_data) :: rest =>
      last_write uid rest
        (if String.eqb id uid && Str.truthy id then Some new_data else earlier)
  | (None, _) :: rest => last_write uid rest earlier
  end.

End StoreRef.

(* ===================================================================== *)
(** ** More of the JavaScript side: the notes formatter *)
(* ===================================================================== *)

(** The matcher once more, this time handing back what is left of the
    subject after the match, which a replacement needs. *)
Module RegexSub.

Fixpoint star (p : ascii -> bool)
    (k : string -> Regex.caps -> option (list string * string))
    (s : string) (st : Regex.caps) : option (list string * string) :=
  match s with
  | String c r =>
      if p c then
        match star p k r (Regex.push c st) with
        | Some g => Some g
        | None => k s st
        end
      else k s st
  | EmptyString => k s st
  end.

Fixpoint run (its : list Regex.item) (s : string) (st : Regex.caps)
    : option (list string * string) :=
  match its with
  | [] => Some (Regex.closed st, s)
  | Regex.Eos :: rest => if Str.is_empty s then run rest s st else None
  | Regex.Open :: rest => run rest s (Regex.open st)
  | Regex.Close :: rest => run rest s (Regex.close st)
  | Regex.Cls p Regex.One :: rest =>
      match s with
      | String c r => if p c then run rest r (Regex.push c st) else None
      | EmptyString => None
      end
  | Regex.Cls p Regex.Star :: rest => star p (run rest) s st
  | Regex.Cls p Regex.Plus :: rest =>
      match s with
      | String c r => if p c then star p (run rest) r (Regex.push c st) else None
      | EmptyString => None
      end
  end.

(** [s.replace(re, replacement)] for a global pattern: every match, found
    from left to right from the end of the previous one, gives way to the
    replacement built from its groups; after an empty match one character is
    copied. [skip] counts the characters of a match still to pass. *)
Fixpoint replace_all (its : list Regex.item) (repl : list string -> string)
    (skip : nat) (s : string) : string :=
  match skip with
  | S k =>
      match s with
      | String _ r => replace_all its repl k r
      | EmptyString => EmptyString
      end
  | O =>
      match run its s Regex.no_caps with
      | Some (g, rest) =>
          let n := String.length s - String.length rest in
          repl g ++
          match s with
          | String c r =>
              if Nat.eqb n 0 then String c (replace_all its repl 0 r)
              else replace_all its repl (n - 1) r
          | EmptyString => EmptyString
          end
      | None =>
          match s with
          | String c r => String c (replace_all its repl 0 r)
          | EmptyString => EmptyString
          end
      end
  end.

End RegexSub.

Module Notes.

Definition nl : string := String Js.newline EmptyString.

(** Group [i], from 1, of a replacement. *)
Definition group (i : nat) (g : list string) : string := Js.group i g.

(** Digits, a dot, white space, as one group. *)
Definition point_pattern : list Regex.item :=
  [Regex.Open;
   Regex.Cls Js.is_digit Regex.Plus;
   Regex.Cls (Regex.chr ".") Regex.One;
   Regex.Cls Js.is_whitespace Regex.Star;
   Regex.Close].

(** The same group, then a group of characters other than a colon, then a
    colon. *)
Definition label_pattern : list Regex.item :=
  [Regex.Open;
   Regex.Cls Js.is_digit Regex.Plus;
   Regex.Cls (Regex.chr ".") Regex.One;
   Regex.Cls Js.is_whitespace Regex.Star;
   Regex.Close;
   Regex.Open;
   Regex.Cls Js.is_not_colon Regex.Plus;
   Regex.Close;
   Regex.Cls (Regex.chr ":") Regex.One].

(** A line feed, then digits and a dot as one group. *)
Definition line_point_pattern : list Regex.item :=
  [Regex.Cls (Regex.chr Js.newline) Regex.One;
   Regex.Open;
   Regex.Cls Js.is_digit Regex.Plus;
   Regex.Cls (Regex.chr ".") Regex.One;
   Regex.Close].

(** [s.trimStart()]. *)
Definition trimStart (s : string) : string :=
  Str.drop_while Js.is_whitespace s.

(** [formatGeneralNotes]; [None] is a null or undefined argument. *)
Definition formatGeneralNotes (notesText : option string) : string :=
  match notesText with
  | None => ""
  | Some text =>
      if Str.is_empty text then ""
      else
        let formatted :=
          RegexSub.replace_all point_pattern
            (fun g => nl ++ group 1 g) 0 text in
        let formatted := trimStart formatted in
        let formatted :=
          RegexSub.replace_all label_pattern
            (fun g => group 1 g ++ "**" ++ group 2 g ++ ":**") 0 formatted in
        let formatted :=
          RegexSub.replace_all line_point_pattern
            (fun g => nl ++ nl ++ group 1 g) 0 formatted in
        formatted
  end.

(** What [GeneralNotesDisplay] renders: nothing ([None], the component
    returns null) or the structured notes. *)
Definition GeneralNotesDisplay (notes : option string) : option (list Js.Item) :=
  let formattedText := formatGeneralNotes notes in
  let structuredNotes := Js.parseListToStructured (Some formattedText) in
  match structuredNotes with
  | [] => None
  | _ => Some structuredNotes
  end.

End Notes.

Module NotesRef.

(** The first character of [s] satisfies [p]. *)
Definition starts_with (p : ascii -> bool) (s : string) : bool :=
  match s with
  | String c _ => p c
  | EmptyString => false
  end.

(** Neither white space nor a star. *)
Definition is_plain_start (c : ascii) : bool :=
  negb (Js.is_whitespace c) && negb (Str.eqc c "*").

(** A text without digit. *)
Definition digit_free (s : string) : bool := negb (Str.any Js.is_digit s).

(** The item with a content only. *)
Definition content_only (line : string) : Js.Item :=
  {| Js.number := None; Js.title := None; Js.content := Js.trim line |}.

End NotesRef.

(* ===================================================================== *)
(** ** Inputs at the edge: a decoder with a nesting limit, a default answer,
       lines joined *)
(* ===================================================================== *)

Module PyEdge.





End PyEdge.

Module JsLines.

(** [lines.join(sep)]. *)
Fixpoint join (sep : ascii) (lines : list string) : string :=
  match lines with
  | [] => EmptyString
  | [line] => line
  | line :: rest => line ++ String sep (join sep rest)
  end.

Definition no_newline (line : string) : bool :=
  negb (Str.any (Str.eqc Js.newline) line).

Definition nonblank (line : string) : bool := Str.truthy (Js.trim line).

(** What follows the dot of a numbered line has a bold title: white space,
    two stars, a title without colon, a colon, two stars, and something
    after. *)
Definition bold_titled (tail spaces heading after : string) : Prop :=
  tail = spaces ++ String "*" (String "*" (heading ++ String ":" (String "*"
           (String "*" after)))) /\
  Str.all Js.is_whitespace spaces = true /\
  Str.truthy heading = true /\ Str.all Js.is_not_colon heading = true /\
  Str.truthy after = true.

End JsLines.

(** ** Binary64 rounding, as the product of two numbers uses it *)

Module FloatRef.

Import FloatOps SpecFloat.

Local Open Scope Z_scope.

(** A shift record as one number: the mantissa with the round bit below
    it. *)
Definition code (mrs : shr_record) : Z := 2 * shr_m mrs + Z.b2z (shr_r mrs).

(** [f] shifts a record by [n] bits: the round bit follows the mantissa
    and the sticky bit remembers every bit that was lost. *)
Definition shifted (n : Z) (f : shr_record -> shr_record) : Prop :=
  forall mrs, 0 <= shr_m mrs ->
    0 <= shr_m (f mrs) /\
    code (f mrs) = code mrs / 2 ^ n /\
    shr_s (f mrs) = shr_s mrs || negb (code mrs mod 2 ^ n =? 0).

(** The mantissa of a record after rounding to nearest, ties to even. *)
Definition rounded (mrs : shr_record) : Z :=
  round_nearest_even (shr_m mrs) (loc_of_shr_record mrs).

(** What [binary_round_aux] gives after its first rounding. *)
Definition finish (sx : bool) (m1 e1 : Z) : spec_float :=
  let '(mrs, e2) := shr_fexp prec emax m1 e1 loc_Exact in
  match shr_m mrs with
  | Z0 => S754_zero sx
  | Zpos m => if Z.leb e2 (emax - prec) then S754_finite sx m e2 else S754_infinity sx
  | _ => S754_nan
  end.

(** The least double whose square is not zero: the square root of two
    times two to the power -538, rounded up. *)
Definition square_floor : float := 0x1.6a09e667f3bcdp-538%float.

End FloatRef.

(* ===================================================================== *)
(** * Properties *)
(* ===================================================================== *)

(** ** Strings *)

Module StrFacts.

Arguments Str.eqc : simpl never.

Lemma app_nil_l (s : string) : "" ++ s = s.
Proof. reflexivity. Qed.

Lemma app_cons (c : ascii) (s t : string) : String c s ++ t = String c (s ++ t).
Proof. reflexivity. Qed.

Lemma app_nil_r (s : string) : s ++ "" = s.
Proof.
  induction s as [|c s IH]; [reflexivity|]. now rewrite app_cons, IH.
Qed.

Lemma app_assoc (a b c : string) : (a ++ b) ++ c = a ++ (b ++ c).
Proof.
  induction a as [|x a IH]; [reflexivity|]. now rewrite !app_cons, IH.
Qed.

Lemma app_snoc (g : string) (c : ascii) (r : string) :
  (g ++ String c "") ++ r = g ++ String c r.
Proof. now rewrite app_assoc, app_cons, app_nil_l. Qed.

Lemma any_app (p : ascii -> bool) (a b : string) :
  Str.any p (a ++ b) = Str.any p a || Str.any p b.
Proof.
  induction a as [|x a IH]; [reflexivity|].
  rewrite app_cons. simpl. rewrite IH. now rewrite orb_assoc.
Qed.

Lemma all_app (p : ascii -> bool) (a b : string) :
  Str.all p (a ++ b) = Str.all p a && Str.all p b.
Proof.
  induction a as [|x a IH]; [reflexivity|].
  rewrite app_cons. simpl. rewrite IH. now rewrite andb_assoc.
Qed.

Lemma eqc_true (a b : ascii) : Str.eqc a b = true -> a = b.
Proof. unfold Str.eqc. apply Ascii.eqb_eq. Qed.

Lemma eqc_refl (a : ascii) : Str.eqc a a = true.
Proof. unfold Str.eqc. apply Ascii.eqb_refl. Qed.

End StrFacts.

(** ** The brace pattern of the extractor *)

Module BraceFacts.

Import StrFacts.

Import PyRef.

Lemma run_tail_items (s g : string) :
  Regex.run tail_items s {| Regex.closed := []; Regex.cur := Some g |} =
  match s with
  | String c _ => if is_close c then Some [g ++ String c ""] else None
  | EmptyString => None
  end.
Proof.
  destruct s as [|c r]; [reflexivity|].
  unfold tail_items.
  cbn [Regex.run Regex.push Regex.close Regex.closed Regex.cur].
  unfold Regex.chr, is_close. destruct (Str.eqc "}" c); reflexivity.
Qed.

(** The greedy star gives characters back until the rest starts with a
    closing brace: the group ends at the last closing brace. *)
Lemma star_any_close (s g : string) :
  Regex.star Regex.any_char (Regex.run tail_items) s
    {| Regex.closed := []; Regex.cur := Some g |} =
  option_map (fun p => [g ++ p]) (upto_last_close s).
Proof.
  revert g. induction s as [|c r IH]; intros g.
  - reflexivity.
  - cbn [Regex.star Regex.any_char upto_last_close].
    unfold Regex.push. cbn [Regex.closed Regex.cur].
    rewrite IH. destruct (upto_last_close r) as [p|]; cbn [option_map].
    + now rewrite app_snoc.
    + rewrite run_tail_items. destruct (is_close c); reflexivity.
Qed.

Lemma run_brace_pattern (s : string) :
  Regex.run Py.brace_pattern s Regex.no_caps =
  match s with
  | String c r =>
      if is_open c then option_map (fun p => [String c p]) (upto_last_close r)
      else None
  | EmptyString => None
  end.
Proof.
  destruct s as [|c r]; [reflexivity|].
  change (Regex.run Py.brace_pattern (String c r) Regex.no_caps) with
    (if Regex.chr "{" c
     then Regex.star Regex.any_char (Regex.run tail_items) r
            {| Regex.closed := []; Regex.cur := Some (String c "") |}
     else None).
  unfold Regex.chr, is_open.
  destruct (Str.eqc "{" c); [|reflexivity].
  rewrite star_any_close.
  destruct (upto_last_close r); reflexivity.
Qed.

Lemma upto_last_close_none (s : string) :
  upto_last_close s = None <-> Str.any is_close s = false.
Proof.
  induction s as [|c r IH]; simpl; [tauto|].
  destruct (upto_last_close r) as [p|].
  - split; [discriminate|]. intros H. apply orb_false_elim in H as [_ H].
    apply IH in H. discriminate.
  - destruct (is_close c); simpl; [split; discriminate|].
    split; intros _; [now apply IH | reflexivity].
Qed.

Lemma upto_last_close_some (s p : string) :
  upto_last_close s = Some p ->
  exists mid post, s = mid ++ String "}" post /\ p = mid ++ "}" /\
                   Str.any is_close post = false.
Proof.
  revert p. induction s as [|c r IH]; intros p; simpl; [discriminate|].
  destruct (upto_last_close r) as [q|] eqn:E.
  - intros [= <-]. destruct (IH q eq_refl) as (mid & post & -> & -> & Hp).
    exists (String c mid), post. auto.
  - destruct (is_close c) eqn:Ec; [|discriminate].
    intros [= <-]. unfold is_close in Ec; apply eqc_true in Ec. subst c.
    exists "", r. split; [reflexivity|]. split; [reflexivity|].
    now apply upto_last_close_none.
Qed.

Lemma upto_last_close_app (mid post : string) :
  Str.any is_close post = false ->
  upto_last_close (mid ++ String "}" post) = Some (mid ++ "}").
Proof.
  intros Hp. induction mid as [|c mid IH]; simpl.
  - apply upto_last_close_none in Hp. now rewrite Hp.
  - now rewrite IH.
Qed.

Lemma search_brace_pattern (s : string) :
  Regex.search Py.brace_pattern s = option_map (fun g => [g]) (leftmost_span s).
Proof.
  induction s as [|c r IH]; [reflexivity|].
  cbn [Regex.search leftmost_span]. rewrite run_brace_pattern.
  destruct (is_open c); [|exact IH].
  destruct (upto_last_close r); [reflexivity | exact IH].
Qed.

Lemma brace_candidate_span (text : string) :
  Py.brace_candidate text = leftmost_span text.
Proof.
  unfold Py.brace_candidate, Py.re_search. rewrite search_brace_pattern.
  destruct (leftmost_span text); reflexivity.
Qed.

Lemma leftmost_span_some (s m : string) :
  leftmost_span s = Some m ->
  exists pre mid post,
    s = pre ++ String "{" (mid ++ String "}" post) /\
    m = String "{" (mid ++ "}") /\
    Str.any is_open pre = false /\ Str.any is_close post = false.
Proof.
  induction s as [|c r IH]; [discriminate|].
  cbn [leftmost_span]. destruct (is_open c) eqn:Ec.
  - destruct (upto_last_close r) as [p|] eqn:Er.
    + intros [= <-]. unfold is_open in Ec. apply eqc_true in Ec. subst c.
      destruct (upto_last_close_some _ _ Er) as (mid & post & -> & -> & Hp).
      exists "", mid, post. auto.
    + intros Hm. destruct (IH Hm) as (pre & mid & post & -> & _).
      apply upto_last_close_none in Er.
      rewrite any_app in Er. apply orb_false_elim in Er as [_ Er].
      cbn [Str.any] in Er. apply orb_false_elim in Er as [_ Er].
      rewrite any_app in Er. apply orb_false_elim in Er as [_ Er].
      cbn [Str.any] in Er. apply orb_false_elim in Er as [Er _].
      discriminate Er.
  - intros Hm. destruct (IH Hm) as (pre & mid & post & -> & -> & Hpre & Hpost).
    exists (String c pre), mid, post. rewrite app_cons. cbn [Str.any].
    rewrite Ec, Hpre. auto.
Qed.

Lemma leftmost_span_app (pre mid post : string) :
  Str.any is_open pre = false -> Str.any is_close post = false ->
  leftmost_span (pre ++ String "{" (mid ++ String "}" post)) =
  Some (String "{" (mid ++ "}")).
Proof.
  intros Hpre Hpost. induction pre as [|c pre IH].
  - rewrite app_nil_l. cbn [leftmost_span]. unfold is_open. rewrite eqc_refl.
    now rewrite upto_last_close_app.
  - rewrite app_cons. cbn [leftmost_span]. cbn [Str.any] in Hpre.
    apply orb_false_elim in Hpre as [-> Hpre]. now apply IH.
Qed.

End BraceFacts.

(** ** Structured Extractor *)

Module ExtractorFacts.

Import PyRef.

Section WithDecoder.

Variable json_loads : string -> Py.outcome Py.json.

(** The parser by cases on the two decoding attempts. *)
Lemma robust_json_parser_cases (text : string) :
  Py.robust_json_parser json_loads text =
  match json_loads text with
  | Py.Returned v => Py.Returned v
  | Py.Raised e =>
      if Py.is_JSONDecodeError e then
        match Py.brace_candidate text with
        | Some json_str => decode_or_default json_loads json_str
        | None => Py.Returned Py.empty_dict
        end
      else Py.Raised e
  end.
Proof.
  unfold Py.robust_json_parser, Py.first_attempt, Py.try_pass.
  destruct (json_loads text) as [v|e]; [reflexivity|].
  destruct (Py.is_JSONDecodeError e); [|reflexivity].
  unfold Py.second_attempt, Py.brace_candidate, decode_or_default, Py.re_search.
  rewrite BraceFacts.search_brace_pattern.
  destruct (leftmost_span text) as [g|]; [|reflexivity].
  cbn [option_map Py.group1]. destruct (json_loads g) as [v|e']; [reflexivity|].
  cbn [Py.try_pass].
  destruct (Py.is_JSONDecodeError_or_AttributeError e'); reflexivity.
Qed.

(** What can escape the parser is an exception of the decoder that is not
    a [JSONDecodeError], from the first attempt or from the second. *)
Lemma robust_json_parser_raises_only (text : string) (e : Py.exn) :
  Py.robust_json_parser json_loads text = Py.Raised e ->
  e <> Py.JSONDecodeError /\
  (json_loads text = Py.Raised e \/
   exists json_str,
     Py.brace_candidate text = Some json_str /\
     json_loads json_str = Py.Raised e).
Proof.
  rewrite robust_json_parser_cases.
  destruct (json_loads text) as [v|e1] eqn:E1; [discriminate|].
  destruct (Py.is_JSONDecodeError e1) eqn:B1.
  - destruct (Py.brace_candidate text) as [json_str|]; [|discriminate].
    unfold decode_or_default.
    destruct (json_loads json_str) as [v|e2] eqn:E2; [discriminate|].
    destruct (Py.is_JSONDecodeError_or_AttributeError e2) eqn:B2; [discriminate|].
    intros [= <-]. split; [now destruct e2 | right; now exists json_str].
  - intros [= <-]. split; [now destruct e1 | now left].
Qed.

End WithDecoder.





(** C5, as the code has it. When the text does not decode, the second
    attempt decodes the part of the text from its first opening brace to its
    last closing brace, whether or not the braces in between are balanced:
    for a text [pre{mid}post] with no opening brace in [pre] and no closing
    brace in [post] that part is [{mid}], and the result is what the decoder
    makes of it (the empty object when it fails); every part the attempt
    picks is of this form, and a text without such a part yields the empty
    object. *)
Theorem second_attempt_first_to_last_brace
    (json_loads : string -> Py.outcome Py.json) (text : string) :
  json_loads text = Py.Raised Py.JSONDecodeError ->
  (forall pre mid post,
     text = pre ++ String "{" (mid ++ String "}" post) ->
     Str.any is_open pre = false -> Str.any is_close post = false ->
     Py.brace_candidate text = Some (String "{" (mid ++ "}")) /\
     Py.robust_json_parser json_loads text =
       decode_or_default json_loads (String "{" (mid ++ "}"))) /\
  (forall json_str, Py.brace_candidate text = Some json_str ->
     exists pre mid post,
       text = pre ++ String "{" (mid ++ String "}" post) /\
       json_str = String "{" (mid ++ "}") /\
       Str.any is_open pre = false /\ Str.any is_close post = false) /\
  (Py.brace_candidate text = None ->
     Py.robust_json_parser json_loads text = Py.Returned Py.empty_dict).
Proof.
  intros E1. rewrite robust_json_parser_cases, E1. cbn [Py.is_JSONDecodeError].
  rewrite BraceFacts.brace_candidate_span. repeat split.
  - subst text. now apply BraceFacts.leftmost_span_app.
  - subst text. now rewrite BraceFacts.leftmost_span_app.
  - intros json_str. apply BraceFacts.leftmost_span_some.
  - now intros ->.
Qed.

Lemma second_attempt_first_to_last_brace_witness :
  Py.brace_candidate "Sure! {} Hope this helps." = Some "{}" /\
  Py.robust_json_parser Py.json_loads_empty_only "Sure! {} Hope this helps."
  = Py.Returned (Py.JObj []).
Proof.
  destruct (second_attempt_first_to_last_brace Py.json_loads_empty_only
              "Sure! {} Hope this helps." eq_refl) as (Hspan & _).
  destruct (Hspan "Sure! " "" " Hope this helps." eq_refl eq_refl eq_refl)
    as [Hc Hr].
  split; [exact Hc | exact Hr].
Defined.

(** C5 as stated fails: on a text with an object that is never closed the
    second attempt retries on a part whose braces are not balanced, although
    the text has a balanced part. *)
Lemma second_attempt_unbalanced :
  Py.brace_candidate "{a: {b: 1}" = Some "{a: {b: 1}" /\
  Py.balanced_braces "{a: {b: 1}" = false /\
  Py.balanced_braces "{b: 1}" = true.
Proof. repeat split; vm_compute; reflexivity. Qed.

End ExtractorFacts.

(** ** Profile store *)

Module ProfileFacts.

(** C2. For a user identifier that is not empty, whatever the store holds
    for it, [update_user_profile] leaves exactly the new data stored under
    it (nothing of the old profile is kept), returns that data, and leaves
    the profiles of the other users as they were. *)
Theorem update_user_profile_replaces (uid : string)
    (new_data : gmap string Py.json)
    (user_profiles : gmap string (gmap string Py.json)) :
  Str.truthy uid = true ->
  (Py.update_user_profile (Some uid) new_data user_profiles).2 !! uid
    = Some new_data /\
  (Py.update_user_profile (Some uid) new_data user_profiles).1 = new_data /\
  (forall other, other ≠ uid ->
     (Py.update_user_profile (Some uid) new_data user_profiles).2 !! other
     = user_profiles !! other).
Proof.
  intros Huid. unfold Py.update_user_profile.
  destruct uid as [|c uid]; [discriminate|]. cbn [Str.is_empty fst snd].
  rewrite lookup_insert_eq. repeat split.
  intros other Hne. now rewrite lookup_insert_ne.
Qed.

(** The stored profile with an age of 30, replaced by an extraction that
    holds a weight of 150 only. *)
Lemma update_user_profile_replaces_witness :
  (Py.update_user_profile (Some "u1") {["weight" := Py.JInt 150]}
     {["u1" := {["age" := Py.JInt 30]}]}).2 !! "u1"
  = Some {["weight" := Py.JInt 150]} /\
  ({["weight" := Py.JInt 150]} : gmap string Py.json) !! "age" = None.
Proof.
  split.
  - apply (update_user_profile_replaces "u1" {["weight" := Py.JInt 150]}
             {["u1" := {["age" := Py.JInt 30]}]} eq_refl).
  - reflexivity.
Defined.

(** C8. With a missing or empty user identifier, [update_user_profile]
    returns the new data and the store it was given, and
    [get_user_profile] returns the empty profile and the store it was
    given. *)
Theorem falsy_id_leaves_store (user_id : option string)
    (new_data : gmap string Py.json)
    (user_profiles : gmap string (gmap string Py.json)) :
  Py.falsy_id user_id = true ->
  Py.update_user_profile user_id new_data user_profiles
    = (new_data, user_profiles) /\
  Py.get_user_profile user_id user_profiles = (∅, user_profiles).
Proof.
  intros Hid. unfold Py.update_user_profile, Py.get_user_profile.
  destruct user_id as [uid|]; [|split; reflexivity].
  cbn [Py.falsy_id] in Hid. rewrite Hid. split; reflexivity.
Qed.

Lemma falsy_id_leaves_store_witness :
  Py.update_user_profile (Some "") {["weight" := Py.JInt 150]}
    {["u1" := {["age" := Py.JInt 30]}]}
  = ({["weight" := Py.JInt 150]}, {["u1" := {["age" := Py.JInt 30]}]}) /\
  Py.get_user_profile (Some "") {["u1" := {["age" := Py.JInt 30]}]}
  = (∅, {["u1" := {["age" := Py.JInt 30]}]}).
Proof.
  apply (falsy_id_leaves_store (Some "") {["weight" := Py.JInt 150]}
           {["u1" := {["age" := Py.JInt 30]}]} eq_refl).
Defined.

End ProfileFacts.

(** ** Plan Generator *)

Module PlanFacts.




End PlanFacts.

(** ** Knowledge Council *)

Module CouncilFacts.

Import PyRef.

Lemma iteration_returns (o : Py.outcome Py.ExpertOutput) (name : string)
    (acc : Py.Bundle) :
  Py.iteration o name acc = Py.Returned (absorb acc (o, name)).
Proof.
  unfold absorb. cbn [fst snd]. unfold Py.iteration.
  destruct o as [result|e]; reflexivity.
Qed.

Lemma aggregate_fold (l : list (Py.outcome Py.ExpertOutput * string))
    (acc : Py.Bundle) :
  Py.aggregate l acc = Py.Returned (fold_left absorb l acc).
Proof.
  revert acc. induction l as [|[o name] l IH]; intros acc; [reflexivity|].
  cbn [Py.aggregate fold_left]. rewrite iteration_returns. apply IH.
Qed.

Lemma absorb_raised (acc : Py.Bundle) (e : Py.exn) (name : string) :
  absorb acc (Py.Raised e, name) = acc.
Proof. reflexivity. Qed.

Lemma absorb_returned (acc : Py.Bundle) (r : Py.ExpertOutput) (name : string) :
  absorb acc (Py.Returned r, name) =
  {| Py.expert_responses := <[name := Py.core_of r]> (Py.expert_responses acc);
     Py.all_references := Py.all_references acc ++ Py.references r;
     Py.all_disclaimers := Py.all_disclaimers acc ++ Py.disclaimers r |}.
Proof.
  unfold absorb, Py.iteration, Py.try_body. cbn [fst snd].
  destruct (Py.references r), (Py.disclaimers r); cbn [Py.nonempty];
    rewrite ?app_nil_r; reflexivity.
Qed.

Lemma fold_absorb (l : list (Py.outcome Py.ExpertOutput * string))
    (acc : Py.Bundle) :
  fold_left absorb l acc =
  {| Py.expert_responses := keyed (answers l) (Py.expert_responses acc);
     Py.all_references :=
       Py.all_references acc
       ++ concat (map (fun a => Py.references (snd a)) (answers l));
     Py.all_disclaimers :=
       Py.all_disclaimers acc
       ++ concat (map (fun a => Py.disclaimers (snd a)) (answers l)) |}.
Proof.
  revert acc. induction l as [|[[r|e] name] l IH]; intros acc.
  - destruct acc. cbn. now rewrite !app_nil_r.
  - cbn [fold_left answers]. rewrite absorb_returned, IH.
    cbn [Py.expert_responses Py.all_references Py.all_disclaimers
         map concat keyed fold_left fst snd].
    now rewrite <- !app_assoc.
  - cbn [fold_left answers]. rewrite absorb_raised. apply IH.
Qed.









(** *** Submission *)

Section Submission.

Variable ExpertInput : Type.
Variable experts : gmap string (ExpertInput -> Py.outcome Py.ExpertOutput).

(** With known expert names only, every task is submitted, in order. *)
Lemma submit_all_known (required_experts : list string)
    (expert_input : ExpertInput) :
  Forall (fun expert => is_Some (experts !! expert)) required_experts ->
  exists futures,
    Py.submit_all ExpertInput experts required_experts expert_input
      = Py.Returned futures /\
    map snd futures = required_experts.
Proof.
  induction 1 as [|expert rest [process_query Hq] _ (futures & Hf & Hn)].
  - now exists [].
  - exists ((process_query expert_input, expert) :: futures).
    cbn [Py.submit_all map snd]. now rewrite Hq, Hf, Hn.
Qed.

(** The council then returns a bundle, whatever the experts do. *)
Lemma consult_returns (required_experts : list string)
    (expert_input : ExpertInput) :
  Forall (fun expert => is_Some (experts !! expert)) required_experts ->
  exists bundle,
    Py.consult ExpertInput experts required_experts expert_input
      = Py.Returned bundle.
Proof.
  intros H. destruct (submit_all_known _ expert_input H) as (futures & Hf & _).
  unfold Py.consult. rewrite Hf, aggregate_fold. now eexists.
Qed.

(** An unknown name aborts the consultation before any future is read. *)
Lemma consult_unknown_expert (before after : list string) (expert : string)
    (expert_input : ExpertInput) :
  Forall (fun expert => is_Some (experts !! expert)) before ->
  experts !! expert = None ->
  Py.consult ExpertInput experts (before ++ expert :: after) expert_input
    = Py.Raised Py.KeyError.
Proof.
  intros Hb He. unfold Py.consult.
  induction Hb as [|known rest [process_query Hq] _ IH].
  - cbn [app Py.submit_all]. now rewrite He.
  - cbn [app Py.submit_all]. rewrite Hq.
    destruct (Py.submit_all ExpertInput experts (rest ++ expert :: after)
                expert_input)
      as [futures|e]; [|exact IH].
    rewrite aggregate_fold in IH. discriminate.
Qed.

End Submission.

(** *** The loop against the thread pool *)

Lemma settle_sound (tasks : list (Py.outcome Py.ExpertOutput * string))
    (i : nat) (settled : gmap nat (Py.outcome Py.ExpertOutput)) :
  pool_sound tasks settled -> pool_sound tasks (Py.settle tasks i settled).
Proof.
  intros Hs j o. unfold Py.settle.
  destruct (tasks !! i) as [[oi ni]|] eqn:Ei; [|apply Hs].
  destruct (decide (i = j)) as [->|Hne].
  - rewrite lookup_insert_eq. intros [= <-]. now exists ni.
  - rewrite lookup_insert_ne by exact Hne. apply Hs.
Qed.

Lemma settle_keeps (tasks : list (Py.outcome Py.ExpertOutput * string))
    (i j : nat) (settled : gmap nat (Py.outcome Py.ExpertOutput)) :
  is_Some (settled !! j) -> is_Some (Py.settle tasks i settled !! j).
Proof.
  intros Hj. unfold Py.settle. destruct (tasks !! i) as [[oi ni]|]; [|exact Hj].
  destruct (decide (i = j)) as [->|Hne].
  - rewrite lookup_insert_eq. now eexists.
  - now rewrite lookup_insert_ne.
Qed.

Lemma settle_settles (tasks : list (Py.outcome Py.ExpertOutput * string))
    (i : nat) (settled : gmap nat (Py.outcome Py.ExpertOutput)) :
  i < length tasks -> is_Some (Py.settle tasks i settled !! i).
Proof.
  intros Hi. unfold Py.settle.
  destruct (lookup_lt_is_Some_2 tasks i Hi) as [[oi ni] ->].
  rewrite lookup_insert_eq. now eexists.
Qed.

(** [future.result()] returns the outcome of its task as soon as the task is
    settled or due to settle, whatever else settles in between. *)
Lemma result_spec (tasks : list (Py.outcome Py.ExpertOutput * string))
    (k : nat) (o : Py.outcome Py.ExpertOutput) (name : string)
    (schedule : list nat) (settled : gmap nat (Py.outcome Py.ExpertOutput)) :
  tasks !! k = Some (o, name) ->
  pool_sound tasks settled ->
  all_due tasks k settled schedule ->
  exists settled' schedule',
    Py.result tasks k settled schedule = Some (o, settled', schedule') /\
    pool_sound tasks settled' /\
    all_due tasks (S k) settled' schedule'.
Proof.
  intros Hk. revert settled.
  induction schedule as [|i schedule IH]; intros settled Hs Hdue.
  - cbn [Py.result]. destruct (settled !! k) as [o'|] eqn:Ek.
    + destruct (Hs _ _ Ek) as [name' Hk']. rewrite Hk in Hk'.
      injection Hk' as -> _. exists settled, []. repeat split; [exact Hs|].
      intros j Hj. apply Hdue. lia.
    + destruct (Hdue k) as [[x Hx]|Hin].
      * split; [lia|]. now apply lookup_lt_Some in Hk.
      * congruence.
      * now apply elem_of_nil in Hin.
  - cbn [Py.result]. destruct (settled !! k) as [o'|] eqn:Ek.
    + destruct (Hs _ _ Ek) as [name' Hk']. rewrite Hk in Hk'.
      injection Hk' as -> _. exists settled, (i :: schedule).
      repeat split; [exact Hs|]. intros j Hj. apply Hdue. lia.
    + apply IH; [now apply settle_sound|].
      intros j Hj. destruct (Hdue j Hj) as [Hsome|Hin].
      * left. now apply settle_keeps.
      * apply elem_of_cons in Hin as [->|Hin]; [|now right].
        left. apply settle_settles. lia.
Qed.

Lemma aggregate_in_pool_spec
    (tasks : list (Py.outcome Py.ExpertOutput * string))
    (l : list (Py.outcome Py.ExpertOutput * string)) :
  forall k settled schedule acc,
    drop k tasks = l ->
    pool_sound tasks settled ->
    all_due tasks k settled schedule ->
    Py.aggregate_in_pool tasks k (map snd l) settled schedule acc
    = Some (Py.aggregate l acc).
Proof.
  induction l as [|[o name] l IH]; intros k settled schedule acc Hl Hs Hdue.
  - reflexivity.
  - assert (Hk : tasks !! k = Some (o, name)).
    { rewrite <- (Nat.add_0_r k), <- lookup_drop, Hl. reflexivity. }
    assert (Hl' : drop (S k) tasks = l).
    { rewrite (drop_S _ _ _ Hk) in Hl. now injection Hl. }
    destruct (result_spec tasks k o name schedule settled Hk Hs Hdue)
      as (settled' & schedule' & Hr & Hs' & Hdue').
    cbn [map snd Py.aggregate_in_pool Py.aggregate]. rewrite Hr.
    rewrite iteration_returns. now apply IH.
Qed.

(** Whatever the order in which the tasks settle, as long as each of them
    does, the loop ends with the bundle of the plain walk in submission
    order. *)
Lemma run_in_pool_any_schedule
    (tasks : list (Py.outcome Py.ExpertOutput * string))
    (schedule : list nat) :
  (forall i, i < length tasks -> i ∈ schedule) ->
  Py.run_in_pool tasks schedule = Some (Py.aggregate tasks Py.empty_bundle).
Proof.
  intros Hall. unfold Py.run_in_pool. apply aggregate_in_pool_spec.
  - reflexivity.
  - intros i o Hi. now rewrite lookup_empty in Hi.
  - intros i Hi. right. apply Hall. lia.
Qed.

(** C7. For every set of submitted tasks, the loop run against a pool in
    which the tasks settle in the reverse of the submission order ends with
    the same bundle as against a pool in which they settle in submission
    order: the bundle of the walk over the futures in submission order. *)
Theorem aggregation_ignores_completion_order
    (tasks : list (Py.outcome Py.ExpertOutput * string)) :
  Py.run_in_pool tasks (reverse (seq 0 (length tasks)))
    = Py.run_in_pool tasks (seq 0 (length tasks)) /\
  Py.run_in_pool tasks (seq 0 (length tasks))
    = Some (Py.aggregate tasks Py.empty_bundle).
Proof.
  rewrite !run_in_pool_any_schedule; [split; reflexivity | |].
  - intros i Hi. apply elem_of_seq. lia.
  - intros i Hi. apply elem_of_reverse, elem_of_seq. lia.
Qed.

(** The order of submission, in contrast, shows in the merged lists. *)
Remark aggregate_follows_submission_order :
  let cites (source : string) :=
    Py.Returned {| Py.title := ""; Py.content := ""; Py.subtopics := [];
                   Py.references := [source]; Py.disclaimers := [] |} in
  (exists bundle,
     Py.aggregate [(cites "A", "nutrition"); (cites "B", "fitness")]
       Py.empty_bundle = Py.Returned bundle /\
     Py.all_references bundle = ["A"; "B"]) /\
  (exists bundle,
     Py.aggregate [(cites "B", "fitness"); (cites "A", "nutrition")]
       Py.empty_bundle = Py.Returned bundle /\
     Py.all_references bundle = ["B"; "A"]).
Proof. split; eexists; split; reflexivity. Qed.

End CouncilFacts.

(** ** The matcher against its reference semantics *)

Module RegexFacts.

Import StrFacts RegexRef.

Lemma pushes_closed (w : string) (st : Regex.caps) :
  Regex.closed (pushes w st) = Regex.closed st.
Proof. revert st. induction w as [|c w IH]; intros st; [reflexivity|]. cbn [pushes]. now rewrite IH. Qed.

Lemma pushes_cur (w : string) (st : Regex.caps) :
  Regex.cur (pushes w st) = (fun g => g ++ w) <$> Regex.cur st.
Proof.
  revert st. induction w as [|c w IH]; intros st.
  - cbn [pushes]. destruct (Regex.cur st); cbn; [now rewrite app_nil_r | reflexivity].
  - cbn [pushes]. rewrite IH. unfold Regex.push. cbn [Regex.cur].
    destruct (Regex.cur st); cbn; [now rewrite app_snoc | reflexivity].
Qed.

Lemma star_sound (p : ascii -> bool)
    (k : string -> Regex.caps -> option (list string)) (s : string) :
  forall st g,
    Regex.star p k s st = Some g ->
    exists w s', s = w ++ s' /\ Str.all p w = true /\ k s' (pushes w st) = Some g.
Proof.
  induction s as [|c r IH]; intros st g.
  - cbn [Regex.star]. intros Hk. exists "", "". auto.
  - cbn [Regex.star]. destruct (p c) eqn:Ec.
    + destruct (Regex.star p k r (Regex.push c st)) as [g'|] eqn:Er.
      * intros [= <-]. destruct (IH _ _ Er) as (w & s' & -> & Hw & Hk).
        exists (String c w), s'. cbn [Str.all pushes]. rewrite Ec, Hw. auto.
      * intros Hk. exists "", (String c r). auto.
    + intros Hk. exists "", (String c r). auto.
Qed.

Lemma run_sound (its : list Regex.item) :
  forall s st g, Regex.run its s st = Some g -> sem its s st g.
Proof.
  induction its as [|it its IH]; intros s st g.
  - cbn. now intros [= <-].
  - destruct it as [p [| |]| | |]; cbn [Regex.run sem].
    + destruct s as [|c r]; [discriminate|]. destruct (p c) eqn:Ec; [|discriminate].
      intros H. exists c, r. auto.
    + intros H. destruct (star_sound _ _ _ _ _ H) as (w & s' & -> & Hw & Hk).
      exists w, s'. auto.
    + destruct s as [|c r]; [discriminate|]. destruct (p c) eqn:Ec; [|discriminate].
      intros H. destruct (star_sound _ _ _ _ _ H) as (w & s' & -> & Hw & Hk).
      exists c, w, s'. auto.
    + apply IH.
    + apply IH.
    + destruct s; cbn [Str.is_empty]; [|discriminate]. intros H. auto.
Qed.

Lemma star_complete (p : ascii -> bool)
    (k : string -> Regex.caps -> option (list string)) (w s' : string) :
  Str.all p w = true ->
  (forall st, is_Some (k s' st)) ->
  forall st, is_Some (Regex.star p k (w ++ s') st).
Proof.
  intros Hw Hk. induction w as [|c w IH]; intros st.
  - rewrite app_nil_l. destruct s' as [|c r]; cbn [Regex.star]; [apply Hk|].
    destruct (p c); [|apply Hk].
    destruct (Regex.star p k r (Regex.push c st)); [now eexists | apply Hk].
  - rewrite app_cons. cbn [Regex.star]. cbn [Str.all] in Hw.
    apply andb_prop in Hw as [-> Hw].
    destruct (IH Hw (Regex.push c st)) as [g ->]. now eexists.
Qed.

Lemma run_complete (its : list Regex.item) :
  forall s, accepts its s -> forall st, is_Some (Regex.run its s st).
Proof.
  induction its as [|it its IH]; intros s Hs st.
  - now eexists.
  - destruct it as [p [| |]| | |]; cbn [Regex.run accepts] in *.
    + destruct Hs as (c & s' & -> & -> & Hs). now apply IH.
    + destruct Hs as (w & s' & -> & Hw & Hs). apply star_complete; [exact Hw|].
      now apply IH.
    + destruct Hs as (c & w & s' & -> & -> & Hw & Hs).
      apply star_complete; [exact Hw|]. now apply IH.
    + now apply IH.
    + now apply IH.
    + destruct Hs as [-> Hs]. cbn [Str.is_empty]. now apply IH.
Qed.

End RegexFacts.

(** ** The note formatter *)

Module FormatterFacts.

Import StrFacts RegexRef RegexFacts JsRef.

Lemma digit_not_whitespace (c : ascii) :
  Js.is_digit c = true -> Js.is_whitespace c = false.
Proof.
  destruct c as [[] [] [] [] [] [] [] []]; vm_compute; congruence.
Qed.

Lemma is_empty_app_cons (a : string) (c : ascii) (r : string) :
  Str.is_empty (a ++ String c r) = false.
Proof. destruct a; reflexivity. Qed.

Lemma drop_while_end_all (p : ascii -> bool) (s : string) :
  Str.all p s = true -> Str.drop_while_end p s = "".
Proof.
  induction s as [|c s IH]; [reflexivity|]. cbn [Str.all Str.drop_while_end].
  intros H. apply andb_prop in H as [-> H]. now rewrite (IH H).
Qed.

Lemma drop_while_end_app (p : ascii -> bool) (a : string) (c : ascii)
    (spaces : string) :
  p c = false -> Str.all p spaces = true ->
  Str.drop_while_end p (a ++ String c spaces) = a ++ String c "".
Proof.
  intros Hc Hs. induction a as [|x a IH].
  - rewrite !app_nil_l. cbn [Str.drop_while_end].
    now rewrite (drop_while_end_all _ _ Hs), Hc.
  - rewrite !app_cons. cbn [Str.drop_while_end]. rewrite IH.
    rewrite is_empty_app_cons. now rewrite andb_false_r.
Qed.

(** Trimming group 1 leaves the digits and the dot. *)
Lemma trim_number (digits spaces : string) :
  Str.truthy digits = true -> Str.all Js.is_digit digits = true ->
  Str.all Js.is_whitespace spaces = true ->
  Js.trim (digits ++ String "." spaces) = digits ++ ".".
Proof.
  intros Hne Hd Hs. unfold Js.trim.
  destruct digits as [|d digits]; [discriminate|].
  cbn [Str.all] in Hd. apply andb_prop in Hd as [Hd _].
  rewrite app_cons. cbn [Str.drop_while].
  rewrite (digit_not_whitespace _ Hd). rewrite <- app_cons.
  now apply drop_while_end_app.
Qed.

Lemma pushes_eq (w : string) (st : Regex.caps) :
  pushes w st =
  {| Regex.closed := Regex.closed st;
     Regex.cur := (fun g => g ++ w) <$> Regex.cur st |}.
Proof.
  rewrite <- (pushes_closed w st), <- pushes_cur. now destruct (pushes w st).
Qed.

Lemma numbered_sound (line : string) (m : list string) :
  Js.str_match line Js.numbered_pattern = Some m ->
  exists digits spaces rest,
    numbered line digits spaces rest /\
    m = [digits ++ String "." spaces; rest].
Proof.
  intros H. apply run_sound in H. unfold Js.numbered_pattern in H.
  cbn [sem] in H.
  destruct H as (c & w & s1 & -> & Hc & Hw & c2 & s2 & -> & Hdot
                 & w3 & s3 & -> & Hw3 & c4 & w4 & s4 & -> & Hc4 & Hw4 & -> & ->).
  apply eqc_true in Hdot. subst c2.
  exists (String c w), w3, (String c4 w4). split.
  - unfold numbered. rewrite app_nil_r. cbn [Str.all]. rewrite Hc, Hw, Hc4, Hw4.
    repeat split. exact Hw3.
  - rewrite !pushes_eq. unfold Regex.push, Regex.open, Regex.close. cbn.
    rewrite !app_nil_l, !app_cons, !app_nil_l. rewrite app_snoc.
    reflexivity.
Qed.

Lemma titled_sound (rest : string) (m : list string) :
  Js.str_match rest Js.title_pattern = Some m ->
  exists heading spaces body,
    titled rest heading spaces body /\ m = [heading; body].
Proof.
  intros H. apply run_sound in H. unfold Js.title_pattern in H.
  cbn [sem] in H.
  destruct H as (a1 & s1 & -> & Ha1 & a2 & s2 & -> & Ha2
                 & c & w & s3 & -> & Hc & Hw
                 & a3 & s4 & -> & Ha3 & a4 & s5 & -> & Ha4 & a5 & s6 & -> & Ha5
                 & w7 & s7 & -> & Hw7 & c8 & w8 & s8 & -> & Hc8 & Hw8 & -> & ->).
  apply eqc_true in Ha1, Ha2, Ha3, Ha4, Ha5. subst a1 a2 a3 a4 a5.
  exists (String c w), w7, (String c8 w8). split.
  - unfold titled. rewrite app_nil_r. cbn [Str.all]. rewrite Hc, Hw, Hc8, Hw8.
    repeat split. exact Hw7.
  - rewrite !pushes_eq. unfold Regex.push, Regex.open, Regex.close. cbn.
    rewrite !app_nil_l. reflexivity.
Qed.

Lemma numbered_complete (line digits spaces rest : string) :
  numbered line digits spaces rest ->
  is_Some (Js.str_match line Js.numbered_pattern).
Proof.
  intros (-> & Hne & Hd & Hs & Hrne & Hr).
  destruct digits as [|c w]; [discriminate|].
  destruct rest as [|c4 w4]; [discriminate|].
  cbn [Str.all] in Hd, Hr.
  apply andb_prop in Hd as [Hc Hw]. apply andb_prop in Hr as [Hc4 Hw4].
  apply run_complete. unfold Js.numbered_pattern. cbn [accepts].
  exists c, w, (String "." (spaces ++ String c4 w4)).
  split; [now rewrite app_cons|]. split; [exact Hc|]. split; [exact Hw|].
  exists "."%char, (spaces ++ String c4 w4).
  split; [reflexivity|]. split; [reflexivity|].
  exists spaces, (String c4 w4). split; [reflexivity|]. split; [exact Hs|].
  exists c4, w4, "". rewrite app_nil_r. auto.
Qed.

Lemma push_all (f : string -> Js.Item) (lines : list string) (acc : list Js.Item) :
  fold_left (fun result line => (result ++ [f line])%list) lines acc
  = (acc ++ map f lines)%list.
Proof.
  revert acc. induction lines as [|line lines IH]; intros acc.
  - cbn. now rewrite List.app_nil_r.
  - cbn [fold_left map]. rewrite IH. now rewrite <- List.app_assoc.
Qed.

(** C9 as stated fails: the line made of a digit, a dot and a space matches
    the numbered-point pattern, and its item has an empty content. *)
Lemma numbered_item_with_empty_content :
  Js.parseListToStructured (Some "1. ")
  = [{| Js.number := Some "1."; Js.title := None; Js.content := "" |}] /\
  Js.str_match "1. " Js.numbered_pattern = Some ["1."; " "].
Proof. split; vm_compute; reflexivity. Qed.

End FormatterFacts.

(** ** The square of a binary64 number *)

Module FloatFacts.

Import FloatOps SpecFloat FloatAxioms FloatRef.

Local Open Scope Z_scope.

Lemma digits2_size (p : positive) : digits2_pos p = Pos.size p.
Proof. induction p; cbn; congruence. Qed.

Lemma digits2_log2 (p : positive) : Zpos (digits2_pos p) = Z.log2 (Zpos p) + 1.
Proof.
  rewrite digits2_size. destruct p; cbn [Pos.size Z.log2]; try reflexivity;
    now rewrite Pos2Z.inj_succ.
Qed.

Lemma digits2_bounds (p : positive) :
  2 ^ (Zpos (digits2_pos p) - 1) <= Zpos p < 2 ^ Zpos (digits2_pos p).
Proof.
  rewrite digits2_log2. replace (Z.log2 (Zpos p) + 1 - 1) with (Z.log2 (Zpos p)) by lia.
  replace (Z.log2 (Zpos p) + 1) with (Z.succ (Z.log2 (Zpos p))) by lia.
  apply Z.log2_spec. lia.
Qed.

Lemma shifted_1 : shifted 1 shr_1.
Proof.
  intros [m r s] Hm. cbn [shr_m] in Hm. unfold code. rewrite Z.pow_1_r.
  destruct m as [|[p|p|]|p]; try lia;
    destruct r, s; cbn [shr_1 shr_m shr_r shr_s Z.b2z orb];
    (split; [lia|]); (split; [Z.div_mod_to_equations; lia|]);
    try reflexivity;
    match goal with
    | |- context [?a mod 2 =? 0] =>
        destruct (Z.eqb_spec (a mod 2) 0) as [H|H]; cbn [negb orb];
        try reflexivity; exfalso; revert H; Z.div_mod_to_equations; lia
    end.
Qed.

Lemma shifted_comp (a b : Z) (f g : shr_record -> shr_record) :
  0 < a -> 0 < b -> shifted a f -> shifted b g ->
  shifted (a + b) (fun mrs => g (f mrs)).
Proof.
  intros Ha Hb Hf Hg mrs Hm.
  destruct (Hf mrs Hm) as (Hm1 & Hc1 & Hs1).
  destruct (Hg (f mrs) Hm1) as (Hm2 & Hc2 & Hs2).
  assert (Hpa : 0 < 2 ^ a) by (apply Z.pow_pos_nonneg; lia).
  assert (Hpb : 0 < 2 ^ b) by (apply Z.pow_pos_nonneg; lia).
  split; [exact Hm2|]. rewrite Z.pow_add_r by lia. split.
  - rewrite Hc2, Hc1. apply Z.div_div; lia.
  - rewrite Hs2, Hs1, Hc1. rewrite <- orb_assoc. f_equal.
    rewrite Z.rem_mul_r by lia.
    pose proof (Z.mod_pos_bound (code mrs) (2 ^ a) Hpa).
    pose proof (Z.mod_pos_bound (code mrs / 2 ^ a) (2 ^ b) Hpb).
    destruct (Z.eqb_spec (code mrs mod 2 ^ a) 0) as [E1|E1];
      destruct (Z.eqb_spec ((code mrs / 2 ^ a) mod 2 ^ b) 0) as [E2|E2];
      destruct (Z.eqb_spec (code mrs mod 2 ^ a + 2 ^ a * ((code mrs / 2 ^ a) mod 2 ^ b)) 0)
        as [E3|E3]; cbn [negb orb]; try reflexivity; exfalso; nia.
Qed.

Lemma shifted_iter (p : positive) : shifted (Zpos p) (iter_pos shr_1 p).
Proof.
  induction p as [p IH|p IH|]; cbn [iter_pos].
  - replace (Zpos p~1) with ((1 + Zpos p) + Zpos p) by lia.
    apply (shifted_comp (1 + Zpos p) (Zpos p)
             (fun mrs => iter_pos shr_1 p (shr_1 mrs)) (iter_pos shr_1 p));
      [lia | lia | | exact IH].
    apply (shifted_comp 1 (Zpos p) shr_1 (iter_pos shr_1 p));
      [lia | lia | exact shifted_1 | exact IH].
  - replace (Zpos p~0) with (Zpos p + Zpos p) by lia.
    apply (shifted_comp (Zpos p) (Zpos p) (iter_pos shr_1 p) (iter_pos shr_1 p));
      [lia | lia | exact IH | exact IH].
  - exact shifted_1.
Qed.

Lemma rounded_zero (M : Z) (p : positive) :
  0 <= M -> M < 2 ^ (Zpos p - 1) ->
  rounded (iter_pos shr_1 p (Build_shr_record M false false)) = 0.
Proof.
  intros HM Hlt.
  destruct (shifted_iter p (Build_shr_record M false false) HM) as (Hm & Hc & _).
  assert (Hp : 2 ^ Zpos p = 2 * 2 ^ (Zpos p - 1)).
  { rewrite <- Z.pow_succ_r by lia. f_equal. lia. }
  unfold code in Hc at 2. cbn [shr_m shr_r Z.b2z] in Hc.
  rewrite Z.div_small in Hc by lia.
  destruct (iter_pos shr_1 p (Build_shr_record M false false)) as [m r s].
  unfold code in Hc. cbn [shr_m shr_r] in *.
  unfold rounded. cbn [shr_m loc_of_shr_record].
  destruct r; cbn [Z.b2z] in Hc; [lia|]. assert (m = 0) as -> by lia.
  destruct s; reflexivity.
Qed.

Lemma rounded_pos (M : Z) (p : positive) :
  2 ^ (Zpos p - 1) < M ->
  0 < rounded (iter_pos shr_1 p (Build_shr_record M false false)).
Proof.
  intros Hlt.
  assert (Hpp : 0 < 2 ^ (Zpos p - 1)) by (apply Z.pow_pos_nonneg; lia).
  assert (HM : 0 <= M) by lia.
  destruct (shifted_iter p (Build_shr_record M false false) HM) as (Hm & Hc & Hs).
  assert (Hp : 2 ^ Zpos p = 2 * 2 ^ (Zpos p - 1)).
  { rewrite <- Z.pow_succ_r by lia. f_equal. lia. }
  unfold code in Hc at 2. unfold code in Hs. cbn [shr_m shr_r shr_s Z.b2z orb] in Hc, Hs.
  rewrite Z.add_0_r in Hc, Hs.
  assert (Hq : 1 <= 2 * M / 2 ^ Zpos p).
  { apply Z.div_le_lower_bound; lia. }
  pose proof (Z.mod_eq (2 * M) (2 ^ Zpos p) ltac:(lia)) as Hmod.
  destruct (iter_pos shr_1 p (Build_shr_record M false false)) as [m r s].
  unfold code in Hc. cbn [shr_m shr_r shr_s] in *.
  unfold rounded. cbn [shr_m loc_of_shr_record].
  destruct (Z.eq_dec m 0) as [->|Hne].
  - destruct r; cbn [Z.b2z] in Hc; [|lia].
    destruct (Z.eqb_spec ((2 * M) mod 2 ^ Zpos p) 0) as [E|E]; [nia|].
    cbn [negb] in Hs. subst s. cbn. lia.
  - unfold round_nearest_even. destruct r, s; try lia.
    destruct (Z.even m); lia.
Qed.

Lemma shr_zero (e n : Z) :
  shr_m (fst (shr (Build_shr_record 0 false false) e n)) = 0.
Proof.
  unfold shr. destruct n as [|p|p]; cbn [fst shr_m]; try reflexivity.
  destruct (shifted_iter p (Build_shr_record 0 false false) ltac:(cbn; lia))
    as (Hm & Hc & _).
  unfold code in Hc at 2. cbn [shr_m shr_r Z.b2z] in Hc.
  rewrite Z.div_0_l in Hc by (apply Z.pow_nonzero; lia).
  unfold code in Hc. destruct (shr_r _); cbn [Z.b2z] in Hc; lia.
Qed.

Lemma shr_positive (p : positive) (e : Z) :
  emin prec emax <= e ->
  0 < shr_m (fst (shr_fexp prec emax (Zpos p) e loc_Exact)).
Proof.
  intros H. unfold shr_fexp, shr. cbn [Zdigits2 shr_record_of_loc].
  unfold fexp in *. change (emin prec emax) with (-1074) in *.
  change prec with 53 in *.
  pose proof (digits2_bounds p) as Hd.
  destruct (Z.max (Zpos (digits2_pos p) + e - 53) (-1074) - e) as [|n|n] eqn:En;
    cbn [fst shr_m]; try lia.
  destruct (shifted_iter n (Build_shr_record (Zpos p) false false) ltac:(cbn; lia))
    as (Hm & Hc & _).
  unfold code in Hc at 2. cbn [shr_m shr_r Z.b2z] in Hc.
  assert (Hq : 2 <= (2 * Zpos p + 0) / 2 ^ Zpos n).
  { assert (Hpow : 2 ^ Zpos n <= 2 ^ (Zpos (digits2_pos p) - 1))
      by (apply Z.pow_le_mono_r; lia).
    apply Z.div_le_lower_bound; [apply Z.pow_pos_nonneg; lia | lia]. }
  unfold code in Hc. destruct (shr_r _); cbn [Z.b2z] in Hc; lia.
Qed.

Lemma binary_round_aux_finish (sx : bool) (m e : Z) :
  binary_round_aux prec emax sx m e loc_Exact
  = finish sx (rounded (fst (shr_fexp prec emax m e loc_Exact)))
              (snd (shr_fexp prec emax m e loc_Exact)).
Proof.
  unfold binary_round_aux, finish, rounded.
  now destruct (shr_fexp prec emax m e loc_Exact) as [mrs e1].
Qed.

Lemma finish_zero (e1 : Z) : finish false 0 e1 = S754_zero false.
Proof.
  unfold finish, shr_fexp. cbn [shr_record_of_loc].
  pose proof (shr_zero e1 (fexp prec emax (Zdigits2 0 + e1) - e1)) as H.
  destruct (shr _ e1 _) as [mrs e2]. cbn [fst] in H. now rewrite H.
Qed.

Lemma finish_pos (m1 e1 : Z) :
  0 < m1 -> emin prec emax <= e1 ->
  SFeqb (finish false m1 e1) (S754_zero false) = false.
Proof.
  intros Hm He. destruct m1 as [|p|p]; try lia.
  unfold finish. pose proof (shr_positive p e1 He) as H.
  destruct (shr_fexp prec emax (Zpos p) e1 loc_Exact) as [mrs e2].
  cbn [fst] in H. destruct (shr_m mrs) as [|m2|m2]; try lia.
  destruct (e2 <=? emax - prec); reflexivity.
Qed.

(** The first shift of [binary_round_aux]. *)
Lemma first_shift (P : positive) (E : Z) :
  let n := fexp prec emax (Zpos (digits2_pos P) + E) - E in
  shr_fexp prec emax (Zpos P) E loc_Exact
  = shr (Build_shr_record (Zpos P) false false) E n.
Proof. reflexivity. Qed.

Lemma round_small (P : positive) (E : Z) (p : positive) :
  Zpos p = -1074 - E -> Zpos P < 2 ^ (Zpos p - 1) ->
  binary_round_aux prec emax false (Zpos P) E loc_Exact = S754_zero false.
Proof.
  intros Hp Hlt. rewrite binary_round_aux_finish, first_shift.
  assert (Hn : fexp prec emax (Zpos (digits2_pos P) + E) - E = Zpos p).
  { unfold fexp. change (emin prec emax) with (-1074). change prec with 53.
    pose proof (digits2_bounds P) as [Hd _].
    assert (Zpos (digits2_pos P) - 1 < Zpos p - 1).
    { apply (Z.pow_lt_mono_r_iff 2); lia. }
    lia. }
  rewrite Hn. unfold shr. cbn [fst snd].
  rewrite rounded_zero by lia. apply finish_zero.
Qed.

Lemma round_large (P : positive) (E : Z) (p : positive) :
  Zpos p = -1074 - E -> Zpos (digits2_pos P) <= Zpos p ->
  2 ^ (Zpos p - 1) < Zpos P ->
  SFeqb (binary_round_aux prec emax false (Zpos P) E loc_Exact) (S754_zero false)
  = false.
Proof.
  intros Hp Hd Hlt. rewrite binary_round_aux_finish, first_shift.
  assert (Hn : fexp prec emax (Zpos (digits2_pos P) + E) - E = Zpos p).
  { unfold fexp. change (emin prec emax) with (-1074). change prec with 53. lia. }
  rewrite Hn. unfold shr. cbn [fst snd].
  apply finish_pos; [now apply rounded_pos|].
  change (emin prec emax) with (-1074). lia.
Qed.

Lemma round_normal (P : positive) (E : Z) :
  emin prec emax < Zpos (digits2_pos P) + E ->
  SFeqb (binary_round_aux prec emax false (Zpos P) E loc_Exact) (S754_zero false)
  = false.
Proof.
  intros H. rewrite binary_round_aux_finish, first_shift.
  unfold fexp in *. change (emin prec emax) with (-1074) in *.
  change prec with 53 in *. unfold shr.
  pose proof (digits2_bounds P) as [Hd _].
  destruct (Z.max (Zpos (digits2_pos P) + E - 53) (-1074) - E) as [|n|n] eqn:En;
    cbn [fst snd].
  - apply finish_pos; [cbn; lia|]. change (emin prec emax) with (-1074). lia.
  - apply finish_pos; [|change (emin prec emax) with (-1074); lia].
    destruct (shifted_iter n (Build_shr_record (Zpos P) false false) ltac:(cbn; lia))
      as (Hm & Hc & _).
    unfold code in Hc at 2. cbn [shr_m shr_r Z.b2z] in Hc.
    assert (Hq : 2 <= (2 * Zpos P + 0) / 2 ^ Zpos n).
    { assert (Hpow : 2 ^ Zpos n <= 2 ^ (Zpos (digits2_pos P) - 1))
        by (apply Z.pow_le_mono_r; lia).
      apply Z.div_le_lower_bound; [apply Z.pow_pos_nonneg; lia | lia]. }
    unfold rounded, round_nearest_even.
    destruct (iter_pos shr_1 n _) as [m r s]. unfold code in Hc.
    cbn [shr_m shr_r loc_of_shr_record] in *.
    destruct r, s; cbn [Z.b2z] in Hc; try lia. destruct (Z.even m); lia.
  - apply finish_pos; [cbn; lia|]. change (emin prec emax) with (-1074). lia.
Qed.

Lemma digits2_square (p : positive) :
  2 * Zpos (digits2_pos p) - 1 <= Zpos (digits2_pos (p * p)) <= 2 * Zpos (digits2_pos p).
Proof.
  rewrite !digits2_log2. rewrite Pos2Z.inj_mul.
  pose proof (Z.log2_mul_below (Zpos p) (Zpos p)).
  pose proof (Z.log2_mul_above (Zpos p) (Zpos p)). lia.
Qed.

Lemma square_zero (x : float) :
  PrimFloat.ltb 0 x = true ->
  PrimFloat.eqb (PrimFloat.mul x x) 0 = PrimFloat.ltb x square_floor.
Proof.
  rewrite !FloatAxioms.ltb_spec, FloatAxioms.eqb_spec, FloatAxioms.mul_spec.
  change (Prim2SF 0) with (S754_zero false).
  change (Prim2SF square_floor) with (S754_finite false 6369051672525773 (-590)).
  pose proof (Prim2SF_valid x) as Hv.
  destruct (Prim2SF x) as [s|s| |s m e]; try discriminate.
  - destruct s; [discriminate|]. reflexivity.
  - destruct s; [discriminate|]. intros _.
    unfold SF64mul, SFmul. cbn [xorb].
    cbn [SpecFloat.valid_binary] in Hv. unfold bounded, canonical_mantissa in Hv.
    apply andb_prop in Hv as [Hc _]. apply Z.eqb_eq in Hc.
    unfold fexp in Hc. change (emin prec emax) with (-1074) in Hc.
    change prec with 53 in Hc.
    pose proof (digits2_square m) as Hsq.
    pose proof (digits2_bounds m) as Hm.
    pose proof (digits2_bounds (m * m)) as Hmm.
    assert (H53 : Zpos m < 2 ^ 53).
    { apply Z.lt_le_trans with (2 ^ Zpos (digits2_pos m)); [lia|].
      apply Z.pow_le_mono_r; lia. }
    unfold SFltb, SFcompare.
    destruct (Z.compare_spec e (-590)) as [He|He|He].
    + subst e. rewrite Pos.compare_cont_spec.
      destruct (Pos.compare_spec m 6369051672525773) as [Hm1|Hm1|Hm1].
      * subst m. vm_compute. reflexivity.
      * apply Pos2Z.pos_lt_pos in Hm1. cbn [Pos.switch_Eq]. rewrite (round_small (m * m) (-590 + -590) 106); [reflexivity | reflexivity |].
        rewrite Pos2Z.inj_mul.
        apply Z.le_lt_trans with (6369051672525772 * 6369051672525772);
          [apply Z.mul_le_mono_nonneg; clear - Hm1; lia | vm_compute; reflexivity].
      * apply Pos2Z.pos_lt_pos in Hm1. cbn [Pos.switch_Eq].
        apply (round_large (m * m) (-590 + -590) 106); [reflexivity | lia |].
        rewrite Pos2Z.inj_mul.
        apply Z.lt_le_trans with (6369051672525774 * 6369051672525774);
          [vm_compute; reflexivity | apply Z.mul_le_mono_nonneg; clear - Hm1; lia].
    + destruct (-1074 - (e + e)) as [|p|p] eqn:Ep; try lia.
      rewrite (round_small (m * m) (e + e) p); [reflexivity | lia |].
      apply Z.lt_le_trans with (2 ^ 106).
      * rewrite Pos2Z.inj_mul. change (2 ^ 106) with (2 ^ 53 * 2 ^ 53).
        apply Z.mul_lt_mono_nonneg; clear - H53; lia.
      * apply Z.pow_le_mono_r; lia.
    + apply round_normal. change (emin prec emax) with (-1074). lia.
Qed.

End FloatFacts.

(** ** The profile card *)

Module CardFacts.

Import JsRef.

(** A float above zero is neither zero nor NaN. *)
Lemma positive_not_zero (x : float) :
  PrimFloat.ltb 0 x = true ->
  PrimFloat.eqb x 0 = false /\ Js.is_nan x = false.
Proof.
  unfold Js.is_nan. rewrite FloatAxioms.ltb_spec, !FloatAxioms.eqb_spec.
  change (FloatOps.Prim2SF 0) with (SpecFloat.S754_zero false).
  destruct (FloatOps.Prim2SF x) as [s|s| |s m e]; cbn; try discriminate.
  - destruct s; [discriminate|]. intros _. split; reflexivity.
  - destruct s; [discriminate|]. intros _. split; [reflexivity|].
    rewrite Pos.compare_refl, Z.compare_refl. reflexivity.
Qed.

Section WithLibrary.

Variable StringToNumber : string -> float.
Variable toFixed : float -> nat -> string.

Lemma bmi_is_Some (profile : gmap string Js.value) :
  is_Some (Js.bmi StringToNumber toFixed profile) <->
  Js.bmi_guard StringToNumber profile = true.
Proof.
  unfold Js.bmi. destruct (Js.bmi_guard StringToNumber profile).
  - split; [reflexivity | now eexists].
  - split; [intros [x Hx]; discriminate | discriminate].
Qed.

Lemma bmi_guard_true (profile : gmap string Js.value) :
  Js.bmi_guard StringToNumber profile = true <->
  Js.to_boolean (Js.prop profile "weight_lbs") = true /\
  Js.to_boolean (Js.prop profile "height_inches") = true /\
  PrimFloat.ltb 0 (Js.to_number StringToNumber (Js.prop profile "height_inches"))
    = true.
Proof.
  unfold Js.bmi_guard. rewrite !andb_true_iff. reflexivity.
Qed.

Lemma no_bmi_no_item (profile : gmap string Js.value) :
  Js.bmi StringToNumber toFixed profile = None ->
  bmi_item_of (Js.UserProfileCard StringToNumber toFixed (Some profile)) = None.
Proof.
  intros H. unfold Js.UserProfileCard.
  destruct (Nat.eqb (size profile) 0); [reflexivity|]. now rewrite H.
Qed.

End WithLibrary.

(** C10, as the code has it. Whatever the conversions of the library do,
    the card computes a BMI exactly when the weight and the height are both
    truthy and the height is above zero; the height is then a number that is
    neither zero nor NaN. The BMI is then the text of the weight times 703
    divided by the square of the height, and that divisor is zero exactly
    when the height is below the least double whose square is not zero
    (about 1.57e-162): from that height on, the division is not a division
    by zero. For a profile without weight, without height or with a height
    that is not above zero, the BMI stays null and the card has no BMI
    item. *)
Theorem bmi_guard_and_divisor (StringToNumber : string -> float)
    (toFixed : float -> nat -> string) (profile : gmap string Js.value) :
  let weight := Js.prop profile "weight_lbs" in
  let height := Js.prop profile "height_inches" in
  let weight_number := Js.to_number StringToNumber weight in
  let height_number := Js.to_number StringToNumber height in
  (is_Some (Js.bmi StringToNumber toFixed profile) <->
     Js.to_boolean weight = true /\ Js.to_boolean height = true /\
     PrimFloat.ltb 0 height_number = true) /\
  (is_Some (Js.bmi StringToNumber toFixed profile) ->
     PrimFloat.eqb height_number 0 = false /\ Js.is_nan height_number = false) /\
  (is_Some (Js.bmi StringToNumber toFixed profile) ->
     Js.bmi StringToNumber toFixed profile
     = Some (toFixed (Js.bmi_quotient StringToNumber profile) 1) /\
     Js.bmi_quotient StringToNumber profile
     = PrimFloat.div (PrimFloat.mul weight_number 703)
                     (Js.bmi_divisor StringToNumber profile) /\
     Js.bmi_divisor StringToNumber profile
     = PrimFloat.mul height_number height_number /\
     PrimFloat.eqb (Js.bmi_divisor StringToNumber profile) 0
     = PrimFloat.ltb height_number FloatRef.square_floor) /\
  (profile !! "weight_lbs" = None \/ profile !! "height_inches" = None \/
   PrimFloat.ltb 0 height_number = false ->
     Js.bmi StringToNumber toFixed profile = None /\
     bmi_item_of (Js.UserProfileCard StringToNumber toFixed (Some profile))
       = None).
Proof.
  intros weight height weight_number height_number.
  subst weight height weight_number height_number.
  split; [|split; [|split]].
  - rewrite bmi_is_Some. apply bmi_guard_true.
  - intros H. apply bmi_is_Some, bmi_guard_true in H as (_ & _ & H).
    now apply positive_not_zero.
  - intros H. apply bmi_is_Some in H.
    split; [unfold Js.bmi; now rewrite H|].
    split; [reflexivity|]. split; [reflexivity|].
    apply bmi_guard_true in H as (_ & _ & H).
    unfold Js.bmi_divisor. now apply FloatFacts.square_zero.
  - intros H.
    assert (Hg : Js.bmi_guard StringToNumber profile = false).
    { unfold Js.bmi_guard. destruct H as [H | [H | H]].
      - unfold Js.prop. now rewrite H.
      - unfold Js.prop. rewrite H. cbn [default Js.to_boolean].
        now rewrite andb_false_r.
      - rewrite H. now rewrite !andb_false_r. }
    assert (Hb : Js.bmi StringToNumber toFixed profile = None).
    { unfold Js.bmi. now rewrite Hg. }
    split; [exact Hb | now apply no_bmi_no_item].
Qed.

(** C10 as stated fails: with a weight of 150 and a height of 1e-200 the
    guard holds, the square of the height is zero, and the quotient, a
    division by zero, is infinite. *)
Lemma bmi_divisor_underflows :
  (forall StringToNumber,
     Js.bmi_guard StringToNumber tiny_height_profile = true) /\
  (forall StringToNumber,
     PrimFloat.eqb (Js.bmi_divisor StringToNumber tiny_height_profile) 0 = true) /\
  (forall StringToNumber,
     Js.bmi_quotient StringToNumber tiny_height_profile = PrimFloat.infinity).
Proof.
  repeat split; intros StringToNumber; vm_compute; reflexivity.
Qed.

End CardFacts.

(* ===================================================================== *)
(** * Further properties of the Python side *)
(* ===================================================================== *)

(** ** Profile store: reads after writes *)

Module StoreFacts.

Import StoreRef.

(** X1. With a user identifier that is not empty, the profile read back
    after an update is the data that was written, and the read leaves the
    store as the update left it. *)
Theorem get_after_update (uid : string) (new_data : gmap string Py.json)
    (user_profiles : gmap string (gmap string Py.json)) :
  Str.truthy uid = true ->
  Py.get_user_profile (Some uid)
    (Py.update_user_profile (Some uid) new_data user_profiles).2
  = (new_data, (Py.update_user_profile (Some uid) new_data user_profiles).2).
Proof.
  intros Huid. destruct uid as [|c uid]; [discriminate|].
  unfold Py.get_user_profile, Py.update_user_profile. cbn [Str.is_empty snd].
  now rewrite lookup_insert_eq.
Qed.

Lemma get_after_update_witness :
  Py.get_user_profile (Some "u1")
    (Py.update_user_profile (Some "u1") {["weight" := Py.JInt 150]} ∅).2
  = ({["weight" := Py.JInt 150]},
     (Py.update_user_profile (Some "u1") {["weight" := Py.JInt 150]} ∅).2).
Proof.
  apply (get_after_update "u1" {["weight" := Py.JInt 150]} ∅ eq_refl).
Defined.

(** X2. Of two updates in a row for the same identifier the second one
    decides the store: the first leaves no trace. *)
Theorem update_twice (user_id : option string)
    (first second : gmap string Py.json)
    (user_profiles : gmap string (gmap string Py.json)) :
  (Py.update_user_profile user_id second
     (Py.update_user_profile user_id first user_profiles).2).2
  = (Py.update_user_profile user_id second user_profiles).2.
Proof.
  unfold Py.update_user_profile. destruct user_id as [uid|]; [|reflexivity].
  destruct (Str.is_empty uid); [reflexivity|]. cbn [snd].
  apply insert_insert_eq.
Qed.

Lemma update_keeps_empty_id (user_id : option string)
    (new_data : gmap string Py.json)
    (user_profiles : gmap string (gmap string Py.json)) :
  user_profiles !! "" = None ->
  (Py.update_user_profile user_id new_data user_profiles).2 !! "" = None.
Proof.
  intros H. unfold Py.update_user_profile. destruct user_id as [uid|]; [|exact H].
  destruct uid as [|c uid]; [exact H|]. cbn [Str.is_empty snd].
  now rewrite lookup_insert_ne.
Qed.

Lemma after_updates_lookup
    (updates : list (option string * gmap string Py.json)) :
  forall (user_profiles : gmap string (gmap string Py.json)) (uid : string),
    Str.truthy uid = true ->
    after_updates updates user_profiles !! uid
    = last_write uid updates (user_profiles !! uid).
Proof.
  induction updates as [|[[id|] new_data] updates IH];
    intros user_profiles uid Huid.
  - reflexivity.
  - cbn [after_updates fold_left last_write fst snd].
    fold (after_updates updates). rewrite IH by exact Huid. f_equal.
    unfold Py.update_user_profile.
    destruct (String.eqb_spec id uid) as [->|Hne].
    + rewrite Huid. destruct uid as [|c uid]; [discriminate|].
      cbn [Str.is_empty snd andb]. apply lookup_insert_eq.
    + cbn [andb]. destruct (Str.is_empty id); [reflexivity|]. cbn [snd].
      now rewrite lookup_insert_ne.
  - cbn [after_updates fold_left last_write fst snd].
    fold (after_updates updates). now rewrite IH.
Qed.

(** X3. After any sequence of updates from the empty store, no profile
    stands under the empty identifier, and every identifier that is not
    empty holds the data of the last update issued for it, or nothing when
    none was. *)
Theorem store_holds_last_writes
    (updates : list (option string * gmap string Py.json)) :
  after_updates updates ∅ !! "" = None /\
  forall uid, Str.truthy uid = true ->
    after_updates updates ∅ !! uid = last_write uid updates None.
Proof.
  split.
  - assert (H : forall s : gmap string (gmap string Py.json),
               s !! "" = None -> after_updates updates s !! "" = None).
    { induction updates as [|[id new_data] updates IH]; intros s Hs; [exact Hs|].
      cbn [after_updates fold_left fst snd]. apply IH.
      now apply update_keeps_empty_id. }
    apply H, lookup_empty.
  - intros uid Huid. rewrite after_updates_lookup by exact Huid.
    now rewrite lookup_empty.
Qed.

End StoreFacts.

(** ** Agent registry *)

Module RegistryFacts.

Section DictFacts.

Context {V : Type}.

Lemma get_set_eq (key : string) (v : V) (d : list (string * V)) :
  Dict.get key (Dict.set key v d) = Some v.
Proof.
  induction d as [|[k x] d IH]; cbn [Dict.set Dict.get].
  - now rewrite String.eqb_refl.
  - destruct (String.eqb k key) eqn:E; cbn [Dict.get]; now rewrite E.
Qed.

Lemma get_set_ne (key other : string) (v : V) (d : list (string * V)) :
  other <> key -> Dict.get other (Dict.set key v d) = Dict.get other d.
Proof.
  intros Hne. induction d as [|[k x] d IH]; cbn [Dict.set Dict.get].
  - destruct (String.eqb_spec key other); [congruence | reflexivity].
  - destruct (String.eqb_spec k key) as [->|Hk]; cbn [Dict.get].
    + destruct (String.eqb_spec key other); [congruence | reflexivity].
    + now rewrite IH.
Qed.

Lemma keys_set (key : string) (v : V) (d : list (string * V)) :
  Dict.keys (Dict.set key v d)
  = if decide (key ∈ Dict.keys d) then Dict.keys d else (Dict.keys d ++ [key])%list.
Proof.
  unfold Dict.keys. induction d as [|[k x] d IH]; cbn [Dict.set map fst].
  - destruct (decide (key ∈ [])) as [Hin|_]; [|reflexivity].
    now apply elem_of_nil in Hin.
  - destruct (String.eqb_spec k key) as [->|Hk]; cbn [map fst].
    + destruct (decide (key ∈ key :: map fst d)) as [_|Hn]; [reflexivity|].
      exfalso. apply Hn. left.
    + rewrite IH. destruct (decide (key ∈ map fst d)) as [Hin|Hn].
      * destruct (decide (key ∈ k :: map fst d)) as [_|Hn']; [reflexivity|].
        exfalso. apply Hn'. now right.
      * destruct (decide (key ∈ k :: map fst d)) as [Hin'|_]; [|reflexivity].
        apply elem_of_cons in Hin' as [->|Hin']; congruence.
Qed.

Lemma get_is_Some (key : string) (d : list (string * V)) :
  is_Some (Dict.get key d) <-> key ∈ Dict.keys d.
Proof.
  unfold Dict.keys. induction d as [|[k x] d IH]; cbn [Dict.get map fst].
  - split; [intros [? [=]] | intros H; now apply elem_of_nil in H].
  - destruct (String.eqb_spec k key) as [->|Hk].
    + split; [intros _; left | intros _; now eexists].
    + rewrite IH. split; [now right|].
      intros H. apply elem_of_cons in H as [->|H]; [congruence | exact H].
Qed.

End DictFacts.

Section WithAgents.

Variable Agent : Type.
Variable name : Agent -> string.

(** X4. An agent is found under its name as soon as it is registered,
    whatever stood there before, and the registration changes what no other
    name resolves to. *)
Theorem get_after_register (agent : Agent)
    (self : Registry.AgentRegistry Agent) :
  Registry.get (name agent) (Registry.register Agent name agent self)
    = Some agent /\
  forall other, other <> name agent ->
    Registry.get other (Registry.register Agent name agent self)
    = Registry.get other self.
Proof.
  unfold Registry.get, Registry.register. cbn [Registry.agents]. split.
  - apply get_set_eq.
  - intros other Hne. now apply get_set_ne.
Qed.

(** X5. Registering an agent under a name that is listed leaves the list of
    agents as it is (the agent takes the place of the former one); under a
    new name it adds the name at the end. *)
Theorem list_agents_after_register (agent : Agent)
    (self : Registry.AgentRegistry Agent) :
  Registry.list_agents (Registry.register Agent name agent self)
  = if decide (name agent ∈ Registry.list_agents self)
    then Registry.list_agents self
    else (Registry.list_agents self ++ [name agent])%list.
Proof.
  unfold Registry.list_agents, Registry.register. cbn [Registry.agents].
  apply keys_set.
Qed.

Lemma well_keyed_set (agent : Agent) (d : list (string * Agent)) :
  RegistryRef.well_keyed name d ->
  RegistryRef.well_keyed name (Dict.set (name agent) agent d).
Proof.
  intros [Hnd Hnames]. split.
  - rewrite keys_set. destruct (decide (name agent ∈ Dict.keys d)) as [_|Hn];
      [exact Hnd|].
    apply NoDup_app. split; [exact Hnd|]. split.
    + intros x Hx Hx'. apply list_elem_of_singleton in Hx'. congruence.
    + apply NoDup_singleton.
  - intros n a. destruct (String.eqb_spec n (name agent)) as [->|Hne].
    + rewrite get_set_eq. now intros [= <-].
    + rewrite get_set_ne by exact Hne. apply Hnames.
Qed.

Lemma register_all_agents (l : list Agent) :
  forall self : Registry.AgentRegistry Agent,
    RegistryRef.well_keyed name (Registry.agents self) ->
    RegistryRef.well_keyed name
      (Registry.agents (Registry.register_all Agent name l self)) /\
    length (Registry.logged (Registry.register_all Agent name l self))
    = length (Registry.logged self) + length l.
Proof.
  induction l as [|agent l IH]; intros self Hself.
  - cbn. split; [exact Hself | lia].
  - change (Registry.register_all Agent name (agent :: l) self)
      with (Registry.register_all Agent name l
              (Registry.register Agent name agent self)).
    destruct (IH (Registry.register Agent name agent self)) as [Hw Hlen].
    { cbn [Registry.register Registry.agents]. now apply well_keyed_set. }
    split; [exact Hw|]. rewrite Hlen. cbn [Registry.register Registry.logged].
    rewrite length_app. cbn [length]. lia.
Qed.

(** X6. In a registry built from the initial one by registrations, the
    list of agents has no name twice, lists exactly the names that resolve,
    every agent is found under its own name only, and one message was
    logged per registration. *)
Theorem registry_invariant (l : list Agent) :
  let self := Registry.register_all Agent name l Registry.init in
  NoDup (Registry.list_agents self) /\
  (forall agent_name,
     agent_name ∈ Registry.list_agents self <->
     is_Some (Registry.get agent_name self)) /\
  (forall agent_name agent,
     Registry.get agent_name self = Some agent -> name agent = agent_name) /\
  length (Registry.logged self) = length l.
Proof.
  intros self. subst self.
  destruct (register_all_agents l Registry.init) as [[Hnd Hnames] Hlen].
  { split; [apply NoDup_nil_2 | intros n a [=]]. }
  split; [exact Hnd|]. split; [|split; [exact Hnames | exact Hlen]].
  intros agent_name. symmetry. apply get_is_Some.
Qed.

End WithAgents.

End RegistryFacts.

(** ** Knowledge Council: submission, waiting, what the bundle keeps *)

Module CouncilMore.

Import PyRef CouncilFacts.

Section Submission.

Variable ExpertInput : Type.
Variable experts : gmap string (ExpertInput -> Py.outcome Py.ExpertOutput).

Lemma submit_all_cases (required_experts : list string)
    (expert_input : ExpertInput) :
  (Forall (fun expert => is_Some (experts !! expert)) required_experts /\
   exists futures,
     Py.submit_all ExpertInput experts required_experts expert_input
     = Py.Returned futures) \/
  (Exists (fun expert => experts !! expert = None) required_experts /\
   Py.submit_all ExpertInput experts required_experts expert_input
   = Py.Raised Py.KeyError).
Proof.
  induction required_experts as [|expert rest IH].
  - left. split; [constructor | now exists []].
  - cbn [Py.submit_all]. destruct (experts !! expert) as [q|] eqn:Eq.
    + destruct IH as [[Hall [futures ->]]|[Hex ->]].
      * left. split; [constructor; [now rewrite Eq | exact Hall] | now eexists].
      * right. split; [now apply Exists_cons_tl | reflexivity].
    + right. split; [now apply Exists_cons_hd | reflexivity].
Qed.

(** X7. A consultation returns a bundle exactly when every required name is
    the name of an expert, whatever the experts then do; in the other case,
    a single unknown name, it raises [KeyError] and no answer of the other
    experts is kept. *)
Theorem consult_returns_iff_known (required_experts : list string)
    (expert_input : ExpertInput) :
  ((exists bundle,
      Py.consult ExpertInput experts required_experts expert_input
      = Py.Returned bundle) <->
   Forall (fun expert => is_Some (experts !! expert)) required_experts) /\
  (Py.consult ExpertInput experts required_experts expert_input
     = Py.Raised Py.KeyError <->
   Exists (fun expert => experts !! expert = None) required_experts).
Proof.
  unfold Py.consult.
  destruct (submit_all_cases required_experts expert_input)
    as [[Hall [futures ->]]|[Hex ->]].
  - rewrite aggregate_fold. split.
    + split; [intros _; exact Hall | intros _; now eexists].
    + split; [discriminate|]. intros Hex. exfalso.
      apply Exists_exists in Hex as (x & Hx & Hnone).
      rewrite Forall_forall in Hall. destruct (Hall x Hx) as [q Hq]. congruence.
  - split.
    + split; [intros [b [=]]|]. intros Hall. exfalso.
      apply Exists_exists in Hex as (x & Hx & Hnone).
      rewrite Forall_forall in Hall. destruct (Hall x Hx) as [q Hq]. congruence.
    + split; [intros _; exact Hex | reflexivity].
Qed.

End Submission.

(** *** Waiting for the pool *)

Lemma result_consumes (tasks : list (Py.outcome Py.ExpertOutput * string))
    (k : nat) (schedule : list nat) :
  forall settled o settled' schedule',
    Py.result tasks k settled schedule = Some (o, settled', schedule') ->
    is_Some (settled' !! k) /\
    forall i, is_Some (settled' !! i) \/ i ∈ schedule' ->
              is_Some (settled !! i) \/ i ∈ schedule.
Proof.
  induction schedule as [|j schedule IH]; intros settled o settled' schedule'.
  - cbn [Py.result]. destruct (settled !! k) as [o'|] eqn:Ek; [|discriminate].
    intros [= <- <- <-]. split; [now rewrite Ek | auto].
  - cbn [Py.result]. destruct (settled !! k) as [o'|] eqn:Ek.
    + intros [= <- <- <-]. split; [now rewrite Ek | auto].
    + intros H. destruct (IH _ _ _ _ H) as [Hk Hmono]. split; [exact Hk|].
      intros i Hi. destruct (Hmono i Hi) as [Hs|Hin]; [|right; now right].
      unfold Py.settle in Hs. destruct (tasks !! j) as [[oj nj]|]; [|now left].
      destruct (decide (j = i)) as [->|Hne]; [right; left|].
      rewrite lookup_insert_ne in Hs by exact Hne. now left.
Qed.

Lemma aggregate_in_pool_needs (tasks : list (Py.outcome Py.ExpertOutput * string))
    (names : list string) :
  forall k settled schedule acc,
    is_Some (Py.aggregate_in_pool tasks k names settled schedule acc) ->
    forall i, k <= i < k + length names ->
              is_Some (settled !! i) \/ i ∈ schedule.
Proof.
  induction names as [|name names IH]; intros k settled schedule acc Hrun i Hi.
  - cbn [length] in Hi. lia.
  - cbn [Py.aggregate_in_pool] in Hrun.
    destruct (Py.result tasks k settled schedule) as [[[o settled'] schedule']|]
      eqn:Er; [|now destruct Hrun].
    destruct (result_consumes _ _ _ _ _ _ _ Er) as [Hk Hmono].
    apply Hmono. destruct (decide (i = k)) as [->|Hne]; [now left|].
    rewrite iteration_returns in Hrun.
    apply (IH _ _ _ _ Hrun). cbn [length] in Hi. lia.
Qed.

(** X8. The loop is a full barrier: run against a pool, it ends exactly
    when every submitted task settles at some point of the schedule, in
    whatever order and however often, and it then ends with the bundle of
    the walk in submission order. *)
Theorem run_in_pool_barrier
    (tasks : list (Py.outcome Py.ExpertOutput * string))
    (schedule : list nat) :
  (is_Some (Py.run_in_pool tasks schedule) <->
   forall i, i < length tasks -> i ∈ schedule) /\
  (is_Some (Py.run_in_pool tasks schedule) ->
   Py.run_in_pool tasks schedule
   = Some (Py.aggregate tasks Py.empty_bundle)).
Proof.
  assert (Hneeds : is_Some (Py.run_in_pool tasks schedule) ->
                   forall i, i < length tasks -> i ∈ schedule).
  { intros Hrun i Hi. unfold Py.run_in_pool in Hrun.
    destruct (aggregate_in_pool_needs _ _ _ _ _ _ Hrun i) as [Hs|Hin].
    - rewrite length_map. lia.
    - rewrite lookup_empty in Hs. now destruct Hs.
    - exact Hin. }
  split.
  - split; [exact Hneeds|]. intros Hall.
    rewrite run_in_pool_any_schedule by exact Hall. now eexists.
  - intros Hrun. apply run_in_pool_any_schedule. now apply Hneeds.
Qed.

(** *** What the bundle keeps *)

Lemma keyed_is_Some (l : list (string * Py.ExpertOutput))
    (m : gmap string Py.CoreFields) (expert_name : string) :
  is_Some (keyed l m !! expert_name) <->
  expert_name ∈ map fst l \/ is_Some (m !! expert_name).
Proof.
  revert m. induction l as [|[n r] l IH]; intros m.
  - cbn. split; [now right|]. intros [H|H]; [now apply elem_of_nil in H | exact H].
  - cbn [keyed fold_left map fst snd]. fold (keyed l). rewrite IH.
    destruct (decide (n = expert_name)) as [->|Hne].
    + rewrite lookup_insert_eq. split; [intros _; left; left|].
      intros _. right. now eexists.
    + rewrite lookup_insert_ne by exact Hne. split.
      * intros [H|H]; [left; now right | now right].
      * intros [H|H]; [|now right].
        apply elem_of_cons in H as [->|H]; [congruence | now left].
Qed.

Lemma answers_elem (l : list (Py.outcome Py.ExpertOutput * string))
    (r : Py.ExpertOutput) (expert_name : string) :
  (Py.Returned r, expert_name) ∈ l <-> (expert_name, r) ∈ answers l.
Proof.
  induction l as [|[[r'|e] n] l IH]; cbn [answers].
  - split; intros H; now apply elem_of_nil in H.
  - rewrite !elem_of_cons, IH. split.
    + intros [[= -> ->]|H]; [now left | now right].
    + intros [[= -> ->]|H]; [now left | now right].
  - rewrite elem_of_cons, IH. split; [|now right].
    intros [[=]|H]; exact H.
Qed.

(** X9. The bundle has an entry for exactly the names under which some
    expert answered, and its merged lists lose nothing: every reference and
    every disclaimer of every answer is in them, also of an answer whose
    stored fields a later answer under the same name has replaced. *)
Theorem bundle_keeps_all_references
    (future_to_expert : list (Py.outcome Py.ExpertOutput * string)) :
  exists bundle,
    Py.aggregate future_to_expert Py.empty_bundle = Py.Returned bundle /\
    (forall expert_name,
       is_Some (Py.expert_responses bundle !! expert_name) <->
       exists result, (Py.Returned result, expert_name) ∈ future_to_expert) /\
    (forall result expert_name,
       (Py.Returned result, expert_name) ∈ future_to_expert ->
       (forall x, x ∈ Py.references result -> x ∈ Py.all_references bundle) /\
       (forall x, x ∈ Py.disclaimers result -> x ∈ Py.all_disclaimers bundle)).
Proof.
  eexists. split; [apply aggregate_fold|]. rewrite fold_absorb.
  cbn [Py.expert_responses Py.all_references Py.all_disclaimers Py.empty_bundle].
  split.
  - intros expert_name. rewrite keyed_is_Some, lookup_empty. split.
    + intros [H|H]; [|now destruct H].
      apply list_elem_of_fmap in H as ([n r] & -> & Hin).
      exists r. now apply answers_elem.
    + intros [r Hr]. left. apply answers_elem in Hr.
      apply list_elem_of_fmap. now exists (expert_name, r).
  - intros result expert_name Hin. apply answers_elem in Hin.
    split; intros x Hx; apply list_elem_of_In, in_concat.
    + exists (Py.references result). split; [|now apply list_elem_of_In].
      apply list_elem_of_In, list_elem_of_fmap. now exists (expert_name, result).
    + exists (Py.disclaimers result). split; [|now apply list_elem_of_In].
      apply list_elem_of_In, list_elem_of_fmap. now exists (expert_name, result).
Qed.

End CouncilMore.

(** ** Structured Extractor: what is recovered and what is not *)

Module ExtractorMore.

Import PyRef StrFacts.

Lemma leftmost_span_needs_braces (s m : string) :
  leftmost_span s = Some m ->
  Str.any is_open s = true /\ Str.any is_close s = true.
Proof.
  intros H.
  destruct (BraceFacts.leftmost_span_some _ _ H)
    as (pre & mid & post & -> & _ & _ & _).
  rewrite !any_app. cbn [Str.any]. rewrite !any_app. cbn [Str.any].
  change (is_open "{") with true. change (is_close "}") with true.
  cbn [orb]. now rewrite !orb_true_r.
Qed.

(** X10. An object between prose is recovered: when the text as a whole does
    not decode, has no opening brace before the object and no closing brace
    after it, and the object decodes, the parser returns the decoded
    object. *)
Theorem recovers_object_in_prose
    (json_loads : string -> Py.outcome Py.json)
    (pre mid post : string) (v : Py.json) :
  json_loads (pre ++ String "{" (mid ++ String "}" post))
    = Py.Raised Py.JSONDecodeError ->
  Str.any is_open pre = false ->
  Str.any is_close post = false ->
  json_loads (String "{" (mid ++ "}")) = Py.Returned v ->
  Py.robust_json_parser json_loads (pre ++ String "{" (mid ++ String "}" post))
    = Py.Returned v.
Proof.
  intros Htext Hpre Hpost Hobj.
  rewrite ExtractorFacts.robust_json_parser_cases, Htext.
  cbn [Py.is_JSONDecodeError].
  rewrite BraceFacts.brace_candidate_span.
  rewrite BraceFacts.leftmost_span_app by assumption.
  unfold decode_or_default. now rewrite Hobj.
Qed.

Lemma recovers_object_in_prose_witness :
  Py.robust_json_parser Py.json_loads_empty_only "Here you go: {} Enjoy!"
  = Py.Returned (Py.JObj []).
Proof.
  apply (recovers_object_in_prose Py.json_loads_empty_only
           "Here you go: " "" " Enjoy!" (Py.JObj [])
           eq_refl eq_refl eq_refl eq_refl).
Defined.

(** X11. A text that does not decode and lacks an opening brace or a
    closing brace (prose without JSON, an object cut off before its first
    closing brace) yields the empty object, and the decoder is not given a
    second text. *)
Theorem no_brace_pair_gives_default
    (json_loads : string -> Py.outcome Py.json) (text : string) :
  json_loads text = Py.Raised Py.JSONDecodeError ->
  Str.any is_open text = false \/ Str.any is_close text = false ->
  Py.brace_candidate text = None /\
  Py.robust_json_parser json_loads text = Py.Returned Py.empty_dict.
Proof.
  intros Htext Hbrace.
  assert (Hnone : Py.brace_candidate text = None).
  { rewrite BraceFacts.brace_candidate_span.
    destruct (leftmost_span text) as [m|] eqn:E; [|reflexivity].
    destruct (leftmost_span_needs_braces _ _ E) as [Ho Hc].
    destruct Hbrace; congruence. }
  split; [exact Hnone|].
  rewrite ExtractorFacts.robust_json_parser_cases, Htext, Hnone. reflexivity.
Qed.

Lemma no_brace_pair_gives_default_witness :
  Py.brace_candidate "{a: [1, 2" = None /\
  Py.robust_json_parser Py.json_loads_empty_only "{a: [1, 2"
  = Py.Returned Py.empty_dict.
Proof.
  apply (no_brace_pair_gives_default Py.json_loads_empty_only "{a: [1, 2"
           eq_refl).
  right. reflexivity.
Defined.

End ExtractorMore.

(** ** Plan Generator: keys and inputs *)

Module PlanMore.

Section WithGenerators.

Variables gen_diet gen_fitness gen_lifestyle gen_notes :
  Py.json -> gmap string Py.json -> Py.json.

(** X12. A plan has at least two and at most four components, and none
    under a key other than the four of the generator. *)
Theorem generate_plan_keys (request user_profile : gmap string Py.json) :
  let plan :=
    Py.generate_plan gen_diet gen_fitness gen_lifestyle gen_notes
      request user_profile in
  2 <= size plan <= 4 /\
  dom plan ⊆ {["diet_plan"; "fitness_plan"; "lifestyle_recommendations";
               "personalized_notes"]}.
Proof.
  intros plan. subst plan. unfold Py.generate_plan.
  destruct (Py.eq_str (Py.plan_type_of request) "diet"
            || Py.eq_str (Py.plan_type_of request) "general");
    destruct (Py.eq_str (Py.plan_type_of request) "fitness"
              || Py.eq_str (Py.plan_type_of request) "general");
    (split;
     [ repeat (rewrite map_size_insert_None
                 by (repeat (rewrite lookup_insert_ne by discriminate);
                     apply lookup_empty));
       rewrite map_size_empty; lia
     | rewrite !dom_insert_L, dom_empty_L; set_unfold; intros x; tauto ]).
Qed.

(** X13. Of a request only the plan type and the goal count: two requests
    that agree on these two keys give the same plan, whatever else they
    hold. *)
Theorem generate_plan_reads_two_keys
    (request1 request2 user_profile : gmap string Py.json) :
  request1 !! "plan_type" = request2 !! "plan_type" ->
  request1 !! "goal" = request2 !! "goal" ->
  Py.generate_plan gen_diet gen_fitness gen_lifestyle gen_notes
    request1 user_profile
  = Py.generate_plan gen_diet gen_fitness gen_lifestyle gen_notes
      request2 user_profile.
Proof.
  intros Ht Hg. unfold Py.generate_plan, Py.plan_type_of, Py.goal_of,
    Py.get_default. now rewrite Ht, Hg.
Qed.

End WithGenerators.

Lemma generate_plan_reads_two_keys_witness :
  Py.generate_plan (fun goal _ => goal) (fun goal _ => goal)
    (fun goal _ => goal) (fun goal _ => goal)
    (<["user_id" := Py.JStr "u1"]> {["plan_type" := Py.JStr "diet"]}) ∅
  = Py.generate_plan (fun goal _ => goal) (fun goal _ => goal)
      (fun goal _ => goal) (fun goal _ => goal)
      {["plan_type" := Py.JStr "diet"]} ∅.
Proof.
  apply (generate_plan_reads_two_keys (fun goal _ => goal) (fun goal _ => goal)
           (fun goal _ => goal) (fun goal _ => goal)
           (<["user_id" := Py.JStr "u1"]> {["plan_type" := Py.JStr "diet"]})
           {["plan_type" := Py.JStr "diet"]} ∅); reflexivity.
Defined.

End PlanMore.

(** ** The relief prompt: what of the profile reaches it *)

Module ReliefFacts.

Section WithDumps.

Variable json_dumps : list (string * Py.json) -> string.

(** The context of the relief prompt is empty exactly when the profile is
    absent or has no entry that is both one of age, activity level and
    health conditions and not [None]; an empty profile is such a one. *)
Lemma context_empty_iff (user_profile : option (list (string * Py.json))) :
  Relief.context json_dumps user_profile = "" <->
  match user_profile with
  | Some entries => Relief.filtered_profile entries = []
  | None => True
  end.
Proof.
  unfold Relief.context. destruct user_profile as [[|entry entries]|].
  - split; reflexivity.
  - destruct (Relief.filtered_profile (entry :: entries)) as [|kv l].
    + split; reflexivity.
    + split; discriminate.
  - split; reflexivity.
Qed.

Lemma filtered_profile_app (d1 d2 : list (string * Py.json)) :
  Relief.filtered_profile (d1 ++ d2)
  = (Relief.filtered_profile d1 ++ Relief.filtered_profile d2)%list.
Proof. unfold Relief.filtered_profile. apply List.filter_app. Qed.

Lemma context_of_filtered (entries : list (string * Py.json)) :
  Relief.context json_dumps (Some entries) =
  match Relief.filtered_profile entries with
  | [] => ""
  | filtered =>
      "User Profile:" ++ String Relief.newline (json_dumps filtered)
      ++ String Relief.newline (String Relief.newline "")
  end.
Proof. destruct entries; reflexivity. Qed.

(** X14. An entry of the profile under another key than the three relevant
    ones, or with the value [None], does not reach the prompt: the context
    is that of the profile without the entry. *)
Theorem context_ignores_entry (before after : list (string * Py.json))
    (key : string) (v : Py.json) :
  Relief.is_relevant key = false \/ v = Py.JNull ->
  Relief.context json_dumps (Some (before ++ (key, v) :: after)%list)
  = Relief.context json_dumps (Some (before ++ after)%list).
Proof.
  intros H. rewrite !context_of_filtered, !filtered_profile_app.
  assert (Hf : Relief.filtered_profile ((key, v) :: after)
               = Relief.filtered_profile after).
  { unfold Relief.filtered_profile. cbn [List.filter fst snd].
    destruct H as [->| ->]; [reflexivity|].
    cbn [Relief.is_not_None]. now rewrite andb_false_r. }
  now rewrite Hf.
Qed.

End WithDumps.

Lemma context_ignores_entry_witness :
  Relief.context (fun _ => "{}")
    (Some [("age", Py.JInt 30); ("weight", Py.JInt 150)])
  = Relief.context (fun _ => "{}") (Some [("age", Py.JInt 30)]).
Proof.
  apply (context_ignores_entry (fun _ => "{}") [("age", Py.JInt 30)] []
           "weight" (Py.JInt 150)).
  left. reflexivity.
Defined.

End ReliefFacts.

(* ===================================================================== *)
(** * Further properties of the JavaScript side *)
(* ===================================================================== *)

(** ** The matcher, step by step *)

Module RegexSteps.

Import StrFacts RegexRef RegexFacts.

Lemma run_open (r : list Regex.item) (s : string) (st : Regex.caps) :
  Regex.run (Regex.Open :: r) s st = Regex.run r s (Regex.open st).
Proof. reflexivity. Qed.

Lemma run_close (r : list Regex.item) (s : string) (st : Regex.caps) :
  Regex.run (Regex.Close :: r) s st = Regex.run r s (Regex.close st).
Proof. reflexivity. Qed.

Lemma run_one (p : ascii -> bool) (r : list Regex.item) (c : ascii)
    (s : string) (st : Regex.caps) :
  Regex.run (Regex.Cls p Regex.One :: r) (String c s) st
  = if p c then Regex.run r s (Regex.push c st) else None.
Proof. reflexivity. Qed.

Lemma run_star (p : ascii -> bool) (r : list Regex.item) (s : string)
    (st : Regex.caps) :
  Regex.run (Regex.Cls p Regex.Star :: r) s st
  = Regex.star p (Regex.run r) s st.
Proof. reflexivity. Qed.

Lemma run_plus (p : ascii -> bool) (r : list Regex.item) (c : ascii)
    (s : string) (st : Regex.caps) :
  Regex.run (Regex.Cls p Regex.Plus :: r) (String c s) st
  = if p c then Regex.star p (Regex.run r) s (Regex.push c st) else None.
Proof. reflexivity. Qed.

Lemma run_eos (r : list Regex.item) (st : Regex.caps) :
  Regex.run (Regex.Eos :: r) "" st = Regex.run r "" st.
Proof. reflexivity. Qed.

(** A greedy star followed by a character outside its class, or by the end
    of the subject, keeps all it has taken when the rest then matches. *)
Lemma star_longest (p : ascii -> bool)
    (k : string -> Regex.caps -> option (list string))
    (w s' : string) (g : list string) :
  Str.all p w = true ->
  NotesRef.starts_with p s' = false ->
  forall st,
    k s' (pushes w st) = Some g ->
    Regex.star p k (w ++ s') st = Some g.
Proof.
  intros Hw Hs'. induction w as [|c w IH]; intros st Hk.
  - rewrite app_nil_l. cbn [pushes] in Hk.
    destruct s' as [|c r]; cbn [Regex.star]; [exact Hk|].
    cbn [NotesRef.starts_with] in Hs'. now rewrite Hs'.
  - rewrite app_cons. cbn [Regex.star]. cbn [Str.all] in Hw.
    apply andb_prop in Hw as [-> Hw]. cbn [pushes] in Hk.
    now rewrite (IH Hw _ Hk).
Qed.

End RegexSteps.

(** ** The note formatter on well-formed lines *)

Module FormatterMore.

Import StrFacts RegexRef RegexFacts RegexSteps FormatterFacts.

Lemma dot_not_digit : Js.is_digit "." = false.
Proof. reflexivity. Qed.

Lemma starts_with_weaken (p q : ascii -> bool) (s : string) :
  (forall c, q c = true -> p c = false) ->
  NotesRef.starts_with q s = true -> NotesRef.starts_with p s = false.
Proof. intros H. destruct s as [|c r]; [discriminate | apply H]. Qed.

(** The groups of a numbered line whose remainder starts with a character
    that is not white space. *)
Lemma numbered_exact (digits spaces text : string) :
  Str.truthy digits = true -> Str.all Js.is_digit digits = true ->
  Str.all Js.is_whitespace spaces = true ->
  NotesRef.starts_with Js.is_whitespace text = false ->
  Str.truthy text = true -> Str.all Js.is_dot text = true ->
  Js.str_match (digits ++ String "." (spaces ++ text)) Js.numbered_pattern
  = Some [digits ++ String "." spaces; text].
Proof.
  intros Hne Hd Hs Hstart Htne Ht.
  destruct digits as [|d ds]; [discriminate|].
  destruct text as [|c t]; [discriminate|].
  cbn [Str.all] in Hd, Ht.
  apply andb_prop in Hd as [Hd Hds]. apply andb_prop in Ht as [Hc Ht].
  unfold Js.str_match, Regex.match_start, Js.numbered_pattern.
  rewrite app_cons, run_open, run_plus, Hd.
  apply star_longest; [exact Hds | reflexivity |].
  rewrite run_one. change (Regex.chr "." ".") with true. cbn iota.
  rewrite run_star.
  apply star_longest; [exact Hs | exact Hstart |].
  rewrite run_close, run_open, run_plus, Hc.
  rewrite <- (app_nil_r t) at 1.
  apply star_longest; [exact Ht | reflexivity |].
  rewrite run_close, run_eos. cbn [Regex.run].
  rewrite !pushes_eq. unfold Regex.push, Regex.open, Regex.close. cbn.
  rewrite !app_nil_l, !app_cons, !app_nil_l, app_snoc. reflexivity.
Qed.

(** The groups of a remainder with a bold title whose body starts with a
    character that is not white space. *)
Lemma titled_exact (heading spaces body : string) :
  Str.truthy heading = true -> Str.all Js.is_not_colon heading = true ->
  Str.all Js.is_whitespace spaces = true ->
  NotesRef.starts_with Js.is_whitespace body = false ->
  Str.truthy body = true -> Str.all Js.is_dot body = true ->
  Js.str_match
    (String "*" (String "*" (heading ++ String ":" (String "*" (String "*"
       (spaces ++ body))))))
    Js.title_pattern
  = Some [heading; body].
Proof.
  intros Hne Hh Hs Hstart Hbne Hb.
  destruct heading as [|h hs]; [discriminate|].
  destruct body as [|c t]; [discriminate|].
  cbn [Str.all] in Hh, Hb.
  apply andb_prop in Hh as [Hh Hhs]. apply andb_prop in Hb as [Hc Ht].
  unfold Js.str_match, Regex.match_start, Js.title_pattern.
  rewrite !run_one. change (Regex.chr "*" "*") with true. cbn iota.
  rewrite app_cons, run_open, run_plus, Hh.
  apply star_longest; [exact Hhs | reflexivity |].
  rewrite run_close, !run_one.
  change (Regex.chr ":" ":") with true. change (Regex.chr "*" "*") with true.
  cbn iota. rewrite run_star.
  apply star_longest; [exact Hs | exact Hstart |].
  rewrite run_open, run_plus, Hc.
  rewrite <- (app_nil_r t) at 1.
  apply star_longest; [exact Ht | reflexivity |].
  rewrite run_close, run_eos. cbn [Regex.run].
  rewrite !pushes_eq. unfold Regex.push, Regex.open, Regex.close. cbn.
  rewrite !app_nil_l. reflexivity.
Qed.

Lemma split_no_separator (sep : ascii) (s : string) :
  Str.any (Str.eqc sep) s = false -> Str.split sep s = [s].
Proof.
  induction s as [|c s IH]; [reflexivity|]. cbn [Str.any Str.split].
  intros H. apply orb_false_elim in H as [Hc Hs].
  unfold Str.eqc in *. rewrite Ascii.eqb_sym in Hc. rewrite Hc.
  now rewrite (IH Hs).
Qed.

Lemma drop_while_end_head (p : ascii -> bool) (c : ascii) (s : string) :
  p c = false -> exists r, Str.drop_while_end p (String c s) = String c r.
Proof. intros Hc. cbn [Str.drop_while_end]. rewrite Hc. now eexists. Qed.

Lemma trim_head (c : ascii) (s : string) :
  Js.is_whitespace c = false -> Str.truthy (Js.trim (String c s)) = true.
Proof.
  intros Hc. unfold Js.trim. cbn [Str.drop_while]. rewrite Hc.
  destruct (drop_while_end_head Js.is_whitespace c s Hc) as [r ->].
  reflexivity.
Qed.

(** A single line that starts with a character other than white space is
    the one non-blank line of itself. *)
Lemma nonblank_single_line (line : string) :
  NotesRef.starts_with Js.is_whitespace line = false ->
  Str.truthy line = true ->
  Str.any (Str.eqc Js.newline) line = false ->
  Js.nonblank_lines line = [line].
Proof.
  intros Hstart Hne Hnl. unfold Js.nonblank_lines.
  rewrite (split_no_separator _ _ Hnl).
  destruct line as [|c s]; [discriminate|].
  cbn [NotesRef.starts_with] in Hstart.
  cbn [filter list_filter]. destruct (decide _) as [_|Hn]; [reflexivity|].
  exfalso. apply Hn. rewrite (trim_head c s Hstart). exact I.
Qed.

Lemma parse_single_line (line : string) :
  NotesRef.starts_with Js.is_whitespace line = false ->
  Str.truthy line = true ->
  Str.any (Str.eqc Js.newline) line = false ->
  Js.parseListToStructured (Some line) = [Js.item_of_line line].
Proof.
  intros Hstart Hne Hnl. unfold Js.parseListToStructured.
  destruct line as [|c s] eqn:E; [discriminate|]. cbn [Str.is_empty].
  rewrite <- E in *. rewrite nonblank_single_line by assumption. reflexivity.
Qed.

Lemma dot_no_newline (s : string) :
  Str.all Js.is_dot s = true -> Str.any (Str.eqc Js.newline) s = false.
Proof.
  induction s as [|c s IH]; [reflexivity|]. cbn [Str.all Str.any].
  intros H. apply andb_prop in H as [Hc Hs]. rewrite (IH Hs), orb_false_r.
  destruct (Str.eqc Js.newline c) eqn:E; [|reflexivity].
  apply eqc_true in E. subst c. discriminate.
Qed.

Lemma digits_no_newline (s : string) :
  Str.all Js.is_digit s = true -> Str.any (Str.eqc Js.newline) s = false.
Proof.
  induction s as [|c s IH]; [reflexivity|]. cbn [Str.all Str.any].
  intros H. apply andb_prop in H as [Hc Hs]. rewrite (IH Hs), orb_false_r.
  destruct (Str.eqc Js.newline c) eqn:E; [|reflexivity].
  apply eqc_true in E. subst c. discriminate.
Qed.

Lemma numbered_line_head (digits rest : string) :
  Str.truthy digits = true -> Str.all Js.is_digit digits = true ->
  NotesRef.starts_with Js.is_whitespace (digits ++ rest) = false /\
  Str.truthy (digits ++ rest) = true.
Proof.
  intros Hne Hd. destruct digits as [|d ds]; [discriminate|].
  cbn [Str.all] in Hd. apply andb_prop in Hd as [Hd _].
  rewrite app_cons. cbn [NotesRef.starts_with]. split; [|reflexivity].
  now apply digit_not_whitespace.
Qed.

(** X15. A line made of digits, a dot, white space without line feed and a
    text parses into one item with the digits and the dot as its number and
    the trimmed text as its content, provided the text has no line
    terminator and starts with a character that is neither white space nor
    a star. *)
Theorem parses_plain_point (digits spaces text : string) :
  Str.truthy digits = true -> Str.all Js.is_digit digits = true ->
  Str.all Js.is_whitespace spaces = true ->
  Str.any (Str.eqc Js.newline) spaces = false ->
  NotesRef.starts_with NotesRef.is_plain_start text = true ->
  Str.all Js.is_dot text = true ->
  Js.parseListToStructured (Some (digits ++ String "." (spaces ++ text)))
  = [{| Js.number := Some (digits ++ ".");
        Js.title := None;
        Js.content := Js.trim text |}].
Proof.
  intros Hne Hd Hs Hsnl Hstart Ht.
  destruct text as [|c t] eqn:Etext; [discriminate|].
  cbn [NotesRef.starts_with] in Hstart. unfold NotesRef.is_plain_start in Hstart.
  apply andb_prop in Hstart as [Hws Hstar].
  apply negb_true_iff in Hws, Hstar. rewrite <- Etext in *.
  assert (Hstart : NotesRef.starts_with Js.is_whitespace text = false)
    by now rewrite Etext.
  assert (Htne : Str.truthy text = true) by now rewrite Etext.
  destruct (numbered_line_head digits (String "." (spaces ++ text)) Hne Hd)
    as [Hhead Hlne].
  rewrite parse_single_line; [|exact Hhead|exact Hlne|].
  - f_equal. unfold Js.item_of_line.
    rewrite (numbered_exact _ _ _ Hne Hd Hs Hstart Htne Ht).
    change (Js.group 2 [digits ++ String "." spaces; text]) with text.
    change (Js.group 1 [digits ++ String "." spaces; text])
      with (digits ++ String "." spaces).
    rewrite (trim_number _ _ Hne Hd Hs).
    assert (Hno : Js.str_match text Js.title_pattern = None).
    { rewrite Etext. unfold Js.str_match, Regex.match_start, Js.title_pattern.
      rewrite run_one. unfold Regex.chr. rewrite Ascii.eqb_sym in Hstar.
      unfold Str.eqc in *. now rewrite Hstar. }
    now rewrite Hno.
  - rewrite any_app. cbn [Str.any]. rewrite any_app.
    rewrite (digits_no_newline _ Hd), Hsnl, (dot_no_newline _ Ht).
    reflexivity.
Qed.

Lemma parses_plain_point_witness :
  Js.parseListToStructured (Some "12.  Drink water ")
  = [{| Js.number := Some "12."; Js.title := None;
        Js.content := Js.trim "Drink water " |}].
Proof.
  apply (parses_plain_point "12" "  " "Drink water "); reflexivity.
Defined.

(** The items of a numbered line with a bold title. *)
Lemma titled_point_items (digits spaces heading spaces' body : string) :
  Str.truthy digits = true -> Str.all Js.is_digit digits = true ->
  Str.all Js.is_whitespace spaces = true ->
  Str.any (Str.eqc Js.newline) spaces = false ->
  Str.truthy heading = true ->
  Str.all Js.is_not_colon heading = true -> Str.all Js.is_dot heading = true ->
  Str.all Js.is_whitespace spaces' = true -> Str.all Js.is_dot spaces' = true ->
  NotesRef.starts_with Js.is_whitespace body = false ->
  Str.truthy body = true -> Str.all Js.is_dot body = true ->
  Js.parseListToStructured
    (Some (digits ++ String "." (spaces ++
             String "*" (String "*" (heading ++ String ":" (String "*"
               (String "*" (spaces' ++ body))))))))
  = [{| Js.number := Some (digits ++ ".");
        Js.title := Some heading;
        Js.content := Js.trim body |}].
Proof.
  intros Hne Hd Hs Hsnl Hhne Hh Hhdot Hs' Hs'dot Hstart Hbne Hb.
  set (rest := String "*" (String "*" (heading ++ String ":" (String "*"
                 (String "*" (spaces' ++ body)))))).
  assert (Hrest : Str.all Js.is_dot rest = true).
  { unfold rest. cbn [Str.all]. rewrite all_app. cbn [Str.all]. rewrite all_app.
    rewrite Hhdot, Hs'dot, Hb. reflexivity. }
  destruct (numbered_line_head digits (String "." (spaces ++ rest)) Hne Hd)
    as [Hhead Hlne].
  rewrite parse_single_line; [|exact Hhead|exact Hlne|].
  - f_equal. unfold Js.item_of_line.
    rewrite (numbered_exact digits spaces rest Hne Hd Hs eq_refl eq_refl Hrest).
    change (Js.group 2 [digits ++ String "." spaces; rest]) with rest.
    change (Js.group 1 [digits ++ String "." spaces; rest])
      with (digits ++ String "." spaces).
    rewrite (trim_number _ _ Hne Hd Hs). unfold rest.
    rewrite (titled_exact heading spaces' body Hhne Hh Hs' Hstart Hbne Hb).
    reflexivity.
  - rewrite any_app. cbn [Str.any]. rewrite any_app.
    rewrite (digits_no_newline _ Hd), Hsnl, (dot_no_newline _ Hrest).
    reflexivity.
Qed.

(** X16. The same line with a bold title before the text (two stars, a
    title without colon, a colon, two stars, white space) parses into one
    item with that title and the trimmed body as its content, provided
    title, white space and body have no line terminator and the body starts
    with a character that is not white space. *)
Theorem parses_titled_point (digits spaces heading spaces' body : string) :
  Str.truthy digits = true -> Str.all Js.is_digit digits = true ->
  Str.all Js.is_whitespace spaces = true ->
  Str.any (Str.eqc Js.newline) spaces = false ->
  Str.truthy heading = true ->
  Str.all Js.is_not_colon heading = true -> Str.all Js.is_dot heading = true ->
  Str.all Js.is_whitespace spaces' = true -> Str.all Js.is_dot spaces' = true ->
  NotesRef.starts_with Js.is_whitespace body = false ->
  Str.truthy body = true -> Str.all Js.is_dot body = true ->
  Js.parseListToStructured
    (Some (digits ++ String "." (spaces ++
             String "*" (String "*" (heading ++ String ":" (String "*"
               (String "*" (spaces' ++ body))))))))
  = [{| Js.number := Some (digits ++ ".");
        Js.title := Some heading;
        Js.content := Js.trim body |}].
Proof. exact (titled_point_items digits spaces heading spaces' body). Qed.

Lemma parses_titled_point_witness :
  Js.parseListToStructured (Some "3. **Exercise:** Walk daily")
  = [{| Js.number := Some "3."; Js.title := Some "Exercise";
        Js.content := Js.trim "Walk daily" |}].
Proof.
  apply (parses_titled_point "3" " " "Exercise" " " "Walk daily");
    reflexivity.
Defined.

End FormatterMore.

(** ** The list parser, item by item *)

Module FormatterExact.

Import StrFacts RegexRef RegexFacts RegexSteps FormatterFacts FormatterMore.
Import JsRef JsLines NotesRef.

(** *** Lines *)

Lemma split_nonempty (sep : ascii) (s : string) : Str.split sep s <> [].
Proof.
  destruct s as [|c r]; cbn [Str.split]; [discriminate|].
  destruct (Str.eqc c sep); [discriminate|].
  destruct (Str.split sep r); discriminate.
Qed.

Lemma join_cons (sep : ascii) (line : string) (rest : list string) :
  rest <> [] -> join sep (line :: rest) = line ++ String sep (join sep rest).
Proof. destruct rest; [congruence | reflexivity]. Qed.

Lemma join_split (sep : ascii) (s : string) :
  join sep (Str.split sep s) = s.
Proof.
  induction s as [|c r IH]; [reflexivity|]. cbn [Str.split].
  pose proof (split_nonempty sep r) as Hne.
  destruct (Str.eqc c sep) eqn:Ec.
  - apply eqc_true in Ec. subst c. rewrite join_cons by exact Hne.
    now rewrite IH.
  - destruct (Str.split sep r) as [|piece pieces]; [congruence|].
    destruct pieces as [|p2 pieces].
    + cbn [join] in *. now rewrite IH.
    + rewrite join_cons by discriminate. rewrite join_cons in IH by discriminate.
      now rewrite app_cons, IH.
Qed.

Lemma split_no_newline (s : string) :
  Forall (fun line => no_newline line = true) (Str.split Js.newline s).
Proof.
  unfold no_newline. induction s as [|c r IH]; [repeat constructor|].
  cbn [Str.split]. destruct (Str.eqc c Js.newline) eqn:Ec.
  - constructor; [reflexivity | exact IH].
  - destruct (Str.split Js.newline r) as [|piece pieces].
    + repeat constructor. cbn [Str.any]. unfold Str.eqc in *.
      rewrite Ascii.eqb_sym, Ec. reflexivity.
    + inversion IH as [|? ? Hp Hps]; subst. constructor; [|exact Hps].
      cbn [Str.any]. unfold Str.eqc in *. rewrite Ascii.eqb_sym, Ec.
      exact Hp.
Qed.

Lemma split_app_sep (sep : ascii) (a s : string) :
  Str.any (Str.eqc sep) a = false ->
  Str.split sep (a ++ String sep s) = a :: Str.split sep s.
Proof.
  intros Ha. induction a as [|c a IH].
  - rewrite app_nil_l. cbn [Str.split]. now rewrite eqc_refl.
  - cbn [Str.any] in Ha. apply orb_false_elim in Ha as [Hc Ha].
    rewrite app_cons. cbn [Str.split]. unfold Str.eqc in *.
    rewrite Ascii.eqb_sym, Hc. now rewrite (IH Ha).
Qed.

Lemma split_join (lines : list string) :
  Forall (fun line => no_newline line = true) lines ->
  lines <> [] ->
  Str.split Js.newline (join Js.newline lines) = lines.
Proof.
  unfold no_newline. induction 1 as [|line rest Hline Hrest IH]; [congruence|].
  intros _. apply negb_true_iff in Hline. destruct rest as [|l2 rest].
  - cbn [join]. now apply split_no_separator.
  - rewrite join_cons by discriminate. rewrite split_app_sep by exact Hline.
    now rewrite IH.
Qed.

Lemma parse_joined (lines : list string) :
  Forall (fun line => no_newline line = true) lines ->
  Js.parseListToStructured (Some (join Js.newline lines))
  = map Js.item_of_line (filter (fun line => Is_true (nonblank line)) lines).
Proof.
  intros Hlines. destruct lines as [|l1 rest]; [reflexivity|].
  unfold Js.parseListToStructured.
  destruct (join Js.newline (l1 :: rest)) as [|c t] eqn:Ej.
  - cbn [Str.is_empty].
    assert (Hl : l1 :: rest = [""]).
    { rewrite <- (split_join (l1 :: rest) Hlines) by discriminate.
      now rewrite Ej. }
    injection Hl as -> ->. reflexivity.
  - cbn [Str.is_empty]. rewrite push_all. cbn [app]. unfold Js.nonblank_lines.
    rewrite <- Ej, (split_join _ Hlines) by discriminate. reflexivity.
Qed.

(** *** The parts of a line are determined *)

Lemma prefix_unique (p : ascii -> bool) (c : ascii) (a b x y : string) :
  p c = false -> Str.all p a = true -> Str.all p b = true ->
  a ++ String c x = b ++ String c y -> a = b /\ x = y.
Proof.
  intros Hc. revert b. induction a as [|a0 a IH]; intros b Ha Hb Heq.
  - destruct b as [|b0 b]; [now injection Heq|].
    rewrite app_nil_l, app_cons in Heq. injection Heq as <- _.
    cbn [Str.all] in Hb. rewrite Hc in Hb. discriminate.
  - destruct b as [|b0 b].
    + rewrite app_nil_l, app_cons in Heq. injection Heq as -> _.
      cbn [Str.all] in Ha. rewrite Hc in Ha. discriminate.
    + rewrite !app_cons in Heq. injection Heq as <- Heq.
      cbn [Str.all] in Ha, Hb.
      apply andb_prop in Ha as [_ Ha]. apply andb_prop in Hb as [_ Hb].
      destruct (IH b Ha Hb Heq) as [-> ->]. auto.
Qed.

Lemma drop_while_prefix (p : ascii -> bool) (w s : string) :
  Str.all p w = true -> Str.drop_while p (w ++ s) = Str.drop_while p s.
Proof.
  induction w as [|c w IH]; intros H; [reflexivity|]. cbn [Str.all] in H.
  apply andb_prop in H as [Hc Hw]. rewrite app_cons. cbn [Str.drop_while].
  rewrite Hc. now apply IH.
Qed.

Lemma trim_prefix (w s : string) :
  Str.all Js.is_whitespace w = true -> Js.trim (w ++ s) = Js.trim s.
Proof. intros H. unfold Js.trim. now rewrite drop_while_prefix. Qed.

(** White space before a text that starts with another character is a
    prefix of any other stretch of white space before it. *)
Lemma spaces_prefix (spaces rest ws R : string) :
  Str.all Js.is_whitespace spaces = true ->
  starts_with Js.is_whitespace R = false -> Str.truthy R = true ->
  spaces ++ rest = ws ++ R ->
  exists x, rest = x ++ R.
Proof.
  intros Hs HR HRne. revert ws. induction spaces as [|c spaces IH]; intros ws Heq.
  - exists ws. exact Heq.
  - cbn [Str.all] in Hs. apply andb_prop in Hs as [Hc Hs].
    destruct ws as [|c' ws].
    + rewrite app_nil_l, app_cons in Heq. subst R.
      cbn [starts_with] in HR. congruence.
    + rewrite !app_cons in Heq. injection Heq as _ Heq. now apply (IH Hs ws).
Qed.


(** *** The bold title *)

Lemma titled_complete (heading after : string) :
  Str.truthy heading = true -> Str.all Js.is_not_colon heading = true ->
  Str.truthy after = true -> Str.all Js.is_dot after = true ->
  is_Some (Js.str_match
    (String "*" (String "*" (heading ++ String ":" (String "*" (String "*" after)))))
    Js.title_pattern).
Proof.
  intros Hne Hh Hane Ha.
  destruct heading as [|c w]; [discriminate|].
  destruct after as [|c4 w4]; [discriminate|].
  cbn [Str.all] in Hh, Ha.
  apply andb_prop in Hh as [Hc Hw]. apply andb_prop in Ha as [Hc4 Hw4].
  apply run_complete. unfold Js.title_pattern. cbn [accepts].
  eexists _, _. split; [reflexivity|]. split; [reflexivity|].
  eexists _, _. split; [reflexivity|]. split; [reflexivity|].
  exists c, w, (String ":" (String "*" (String "*" (String c4 w4)))).
  split; [now rewrite app_cons|]. split; [exact Hc|]. split; [exact Hw|].
  eexists _, _. split; [reflexivity|]. split; [reflexivity|].
  eexists _, _. split; [reflexivity|]. split; [reflexivity|].
  eexists _, _. split; [reflexivity|]. split; [reflexivity|].
  exists "", (String c4 w4). split; [reflexivity|]. split; [reflexivity|].
  exists c4, w4, "". rewrite app_nil_r. auto.
Qed.

(** The item of a numbered line whose remainder carries a bold title. *)
Lemma item_of_titled_line (line digits spaces rest ws heading after : string) :
  numbered line digits spaces rest ->
  bold_titled (spaces ++ rest) ws heading after ->
  Js.item_of_line line
  = {| Js.number := Some (digits ++ ".");
       Js.title := Some heading;
       Js.content := Js.trim after |}.
Proof.
  intros (-> & Hne & Hd & Hs & Hrne & Hr) (Htail & Hws & Hhne & Hh & Hane).
  set (R := String "*" (String "*" (heading ++ String ":" (String "*" (String "*" after))))) in *.
  assert (HR : Str.all Js.is_dot R = true).
  { destruct (spaces_prefix spaces rest ws R Hs eq_refl eq_refl Htail) as [x Hx].
    rewrite Hx, all_app in Hr. now apply andb_prop in Hr as [_ Hr]. }
  assert (Ha : Str.all Js.is_dot after = true).
  { unfold R in HR. cbn [Str.all] in HR.
    apply andb_prop in HR as [_ HR]. apply andb_prop in HR as [_ HR].
    rewrite all_app in HR. apply andb_prop in HR as [_ HR].
    cbn [Str.all] in HR.
    apply andb_prop in HR as [_ HR]. apply andb_prop in HR as [_ HR].
    now apply andb_prop in HR as [_ HR]. }
  unfold Js.item_of_line. rewrite Htail.
  rewrite (numbered_exact digits ws R Hne Hd Hws eq_refl eq_refl HR).
  change (Js.group 1 [digits ++ String "." ws; R]) with (digits ++ String "." ws).
  change (Js.group 2 [digits ++ String "." ws; R]) with R.
  rewrite (trim_number digits ws Hne Hd Hws).
  destruct (titled_complete heading after Hhne Hh Hane Ha) as [cm Hcm].
  fold R in Hcm. rewrite Hcm.
  destruct (titled_sound R cm Hcm) as (h' & s' & b' & (HRe & _ & Hh' & Hs' & _ & _) & ->).
  unfold R in HRe. injection HRe as HRe.
  destruct (prefix_unique Js.is_not_colon ":" heading h' _ _ eq_refl Hh Hh' HRe)
    as [<- Hafter].
  injection Hafter as ->.
  change (Js.group 1 [heading; b']) with heading.
  change (Js.group 2 [heading; b']) with b'.
  now rewrite (trim_prefix s' b' Hs').
Qed.

(** The item of a numbered line whose remainder carries no bold title. *)
Lemma item_of_untitled_line (line digits spaces rest : string) :
  numbered line digits spaces rest ->
  (~ exists ws heading after, bold_titled (spaces ++ rest) ws heading after) ->
  Js.item_of_line line
  = {| Js.number := Some (digits ++ ".");
       Js.title := None;
       Js.content := Js.trim (spaces ++ rest) |}.
Proof.
  intros Hnum Hplain.
  destruct (numbered_complete _ _ _ _ Hnum) as [m Hm].
  destruct (numbered_sound _ _ Hm) as (d0 & s0 & r0 & Hnum0 & ->).
  destruct Hnum as (-> & Hne & Hd & Hs & Hrne & Hr).
  destruct Hnum0 as (Hline & Hne0 & Hd0 & Hs0 & Hrne0 & Hr0).
  destruct (prefix_unique Js.is_digit "." digits d0 _ _ eq_refl Hd Hd0 Hline)
    as [<- Htail].
  unfold Js.item_of_line. rewrite Hm.
  change (Js.group 1 [digits ++ String "." s0; r0]) with (digits ++ String "." s0).
  change (Js.group 2 [digits ++ String "." s0; r0]) with r0.
  rewrite (trim_number digits s0 Hne Hd Hs0).
  destruct (Js.str_match r0 Js.title_pattern) as [cm|] eqn:Hcm.
  - exfalso. apply Hplain.
    destruct (titled_sound r0 cm Hcm) as (h & s' & b & (-> & Hhne & Hh & Hs' & Hbne & _) & _).
    exists s0, h, (s' ++ b). unfold bold_titled. rewrite Htail.
    split; [reflexivity|]. split; [exact Hs0|]. split; [exact Hhne|].
    split; [exact Hh|]. destruct s'; [exact Hbne | reflexivity].
  - rewrite Htail. now rewrite (trim_prefix s0 r0 Hs0).
Qed.

(** The item of a line that is not numbered. *)
Lemma item_of_plain_line (line : string) :
  (~ exists digits spaces rest, numbered line digits spaces rest) ->
  Js.item_of_line line = content_only line.
Proof.
  intros Hplain. unfold Js.item_of_line.
  destruct (Js.str_match line Js.numbered_pattern) as [m|] eqn:Hm; [|reflexivity].
  exfalso. apply Hplain.
  destruct (numbered_sound _ _ Hm) as (d & s & r & Hnum & _). now exists d, s, r.
Qed.


(** *** The claim *)

(** C9, as the code has it.  [parseListToStructured] returns an empty
    array for a missing or empty text.  Any other text is its lines joined
    by line feeds, and the result has exactly one item per line that is not
    blank after trimming, in order.  The item of a numbered line (digits, a dot,
    white space, a remainder without line terminator) has the digits with
    the dot as [number]; when the remainder is a bold heading without
    colon, closed by a colon and two stars, followed by more text, the
    heading is the [title] and the trimmed text after it the [content];
    otherwise there is no [title] and the [content] is the trimmed
    remainder, which can be empty.  The item of any other line has only
    the trimmed line as [content], which is not empty.  A line matches the
    numbered-point pattern exactly when it is numbered. *)
Theorem parseListToStructured_line_by_line (text : string) :
  Js.parseListToStructured None = [] /\
  Js.parseListToStructured (Some "") = [] /\
  (join Js.newline (Str.split Js.newline text) = text /\
   Forall (fun line => no_newline line = true) (Str.split Js.newline text)) /\
  (forall lines,
     Forall (fun line => no_newline line = true) lines ->
     Js.parseListToStructured (Some (join Js.newline lines))
     = map Js.item_of_line (filter (fun line => Is_true (nonblank line)) lines)) /\
  (forall line digits spaces rest,
     numbered line digits spaces rest ->
     (forall ws heading after,
        bold_titled (spaces ++ rest) ws heading after ->
        Js.item_of_line line
        = {| Js.number := Some (digits ++ ".");
             Js.title := Some heading;
             Js.content := Js.trim after |}) /\
     ((~ exists ws heading after, bold_titled (spaces ++ rest) ws heading after) ->
      Js.item_of_line line
      = {| Js.number := Some (digits ++ ".");
           Js.title := None;
           Js.content := Js.trim (spaces ++ rest) |})) /\
  (forall line,
     (~ exists digits spaces rest, numbered line digits spaces rest) ->
     Js.item_of_line line
     = {| Js.number := None; Js.title := None; Js.content := Js.trim line |} /\
     (nonblank line = true ->
      Str.truthy (Js.content (Js.item_of_line line)) = true)) /\
  (forall line,
     is_Some (Js.str_match line Js.numbered_pattern) <->
     exists digits spaces rest, numbered line digits spaces rest).
Proof.
  split; [reflexivity|]. split; [reflexivity|].
  split; [split; [apply join_split | apply split_no_newline]|].
  split; [exact parse_joined|].
  split; [|split].
  - intros line digits spaces rest Hnum. split.
    + intros ws heading after. now apply item_of_titled_line.
    + now apply item_of_untitled_line.
  - intros line Hplain. rewrite (item_of_plain_line line Hplain).
    split; [reflexivity|]. intros H. exact H.
  - intros line. split.
    + intros [m Hm]. destruct (numbered_sound _ _ Hm) as (d & s & r & Hn & _).
      now exists d, s, r.
    + intros (d & s & r & Hn). now apply (numbered_complete _ _ _ _ Hn).
Qed.

End FormatterExact.

(** ** The notes formatter *)

Module NotesFacts.

Import StrFacts RegexRef FormatterFacts FormatterMore NotesRef.

(** The matcher that hands back the rest agrees with the matcher of the
    groups. *)
Lemma sub_star_groups (p : ascii -> bool)
    (k : string -> Regex.caps -> option (list string))
    (k' : string -> Regex.caps -> option (list string * string)) :
  (forall s st, fst <$> k' s st = k s st) ->
  forall s st, fst <$> RegexSub.star p k' s st = Regex.star p k s st.
Proof.
  intros Hk. induction s as [|c r IH]; intros st; cbn [RegexSub.star Regex.star].
  - apply Hk.
  - destruct (p c); [|apply Hk]. rewrite <- IH.
    destruct (RegexSub.star p k' r (Regex.push c st)); [reflexivity | apply Hk].
Qed.

Lemma sub_run_groups (its : list Regex.item) :
  forall s st, fst <$> RegexSub.run its s st = Regex.run its s st.
Proof.
  induction its as [|it its IH]; intros s st; [reflexivity|].
  destruct it as [p [| |]| | |]; cbn [RegexSub.run Regex.run].
  - destruct s as [|c r]; [reflexivity|]. destruct (p c); [apply IH | reflexivity].
  - now apply sub_star_groups.
  - destruct s as [|c r]; [reflexivity|].
    destruct (p c); [now apply sub_star_groups | reflexivity].
  - apply IH.
  - apply IH.
  - destruct (Str.is_empty s); [apply IH | reflexivity].
Qed.

(** A pattern that matches nowhere in a text leaves the text as it is. *)
Lemma replace_all_no_match (its : list Regex.item)
    (repl : list string -> string) (ok : string -> bool) :
  (forall c s, ok (String c s) = true -> ok s = true) ->
  (forall s, ok s = true -> RegexSub.run its s Regex.no_caps = None) ->
  forall s, ok s = true -> RegexSub.replace_all its repl 0 s = s.
Proof.
  intros Htail Hnone. induction s as [|c s IH]; intros Hs.
  - cbn [RegexSub.replace_all]. now rewrite (Hnone _ Hs).
  - cbn [RegexSub.replace_all]. rewrite (Hnone _ Hs).
    now rewrite (IH (Htail _ _ Hs)).
Qed.

Lemma digit_free_tail (c : ascii) (s : string) :
  digit_free (String c s) = true -> digit_free s = true.
Proof.
  unfold digit_free. cbn [Str.any]. intros H. apply negb_true_iff in H.
  apply orb_false_elim in H as [_ ->]. reflexivity.
Qed.

Lemma digit_free_head (c : ascii) (s : string) :
  digit_free (String c s) = true -> Js.is_digit c = false.
Proof.
  unfold digit_free. cbn [Str.any]. intros H. apply negb_true_iff in H.
  now apply orb_false_elim in H as [-> _].
Qed.

Lemma point_pattern_needs_digit (s : string) :
  digit_free s = true -> RegexSub.run Notes.point_pattern s Regex.no_caps = None.
Proof.
  intros H. destruct s as [|c s]; [reflexivity|].
  unfold Notes.point_pattern. cbn [RegexSub.run].
  now rewrite (digit_free_head _ _ H).
Qed.

Lemma label_pattern_needs_digit (s : string) :
  digit_free s = true -> RegexSub.run Notes.label_pattern s Regex.no_caps = None.
Proof.
  intros H. destruct s as [|c s]; [reflexivity|].
  unfold Notes.label_pattern. cbn [RegexSub.run].
  now rewrite (digit_free_head _ _ H).
Qed.

Lemma line_point_pattern_needs_digit (s : string) :
  digit_free s = true ->
  RegexSub.run Notes.line_point_pattern s Regex.no_caps = None.
Proof.
  intros H. destruct s as [|c s]; [reflexivity|].
  unfold Notes.line_point_pattern. cbn [RegexSub.run].
  destruct (Regex.chr Js.newline c); [|reflexivity].
  apply digit_free_tail in H. destruct s as [|c' s]; [reflexivity|].
  now rewrite (digit_free_head _ _ H).
Qed.

Lemma digit_free_drop_while (p : ascii -> bool) (s : string) :
  digit_free s = true -> digit_free (Str.drop_while p s) = true.
Proof.
  induction s as [|c s IH]; intros H; [reflexivity|]. cbn [Str.drop_while].
  destruct (p c); [|exact H]. apply IH. now apply digit_free_tail in H.
Qed.

(** The formatter on a text without digit. *)
Lemma format_without_digit (text : string) :
  Str.any Js.is_digit text = false ->
  Notes.formatGeneralNotes (Some text) = Notes.trimStart text.
Proof.
  intros H. assert (Hfree : digit_free text = true)
    by (unfold digit_free; now rewrite H).
  unfold Notes.formatGeneralNotes. destruct text as [|c t] eqn:E; [reflexivity|].
  cbn [Str.is_empty]. rewrite <- E in *.
  rewrite (replace_all_no_match Notes.point_pattern _ digit_free
             digit_free_tail point_pattern_needs_digit _ Hfree).
  assert (Hfree' : digit_free (Notes.trimStart text) = true)
    by now apply digit_free_drop_while.
  rewrite (replace_all_no_match Notes.label_pattern _ digit_free
             digit_free_tail label_pattern_needs_digit _ Hfree').
  now rewrite (replace_all_no_match Notes.line_point_pattern _ digit_free
                 digit_free_tail line_point_pattern_needs_digit _ Hfree').
Qed.

(** X17. A text without digit has no numbered point to set apart: the
    formatter only removes the white space at its start. *)
Theorem formatGeneralNotes_without_digit (text : string) :
  Str.any Js.is_digit text = false ->
  Notes.formatGeneralNotes (Some text) = Notes.trimStart text.
Proof. exact (format_without_digit text). Qed.

Lemma formatGeneralNotes_without_digit_witness :
  Notes.formatGeneralNotes (Some "  Stay hydrated: drink water")
  = Notes.trimStart "  Stay hydrated: drink water".
Proof.
  apply (formatGeneralNotes_without_digit "  Stay hydrated: drink water").
  reflexivity.
Defined.

(** *** A labelled point *)

Ltac str_norm :=
  repeat first [ rewrite app_cons | rewrite app_assoc | rewrite app_nil_l ].

Lemma sub_star_longest (p : ascii -> bool)
    (k : string -> Regex.caps -> option (list string * string))
    (w s' : string) (g : list string * string) :
  Str.all p w = true ->
  starts_with p s' = false ->
  forall st,
    k s' (pushes w st) = Some g ->
    RegexSub.star p k (w ++ s') st = Some g.
Proof.
  intros Hw Hs'. induction w as [|c w IH]; intros st Hk.
  - rewrite app_nil_l. cbn [pushes] in Hk.
    destruct s' as [|c r]; cbn [RegexSub.star]; [exact Hk|].
    cbn [starts_with] in Hs'. now rewrite Hs'.
  - rewrite app_cons. cbn [RegexSub.star]. cbn [Str.all] in Hw.
    apply andb_prop in Hw as [-> Hw]. cbn [pushes] in Hk.
    now rewrite (IH Hw _ Hk).
Qed.

Lemma sub_run_open (r : list Regex.item) (s : string) (st : Regex.caps) :
  RegexSub.run (Regex.Open :: r) s st = RegexSub.run r s (Regex.open st).
Proof. reflexivity. Qed.

Lemma sub_run_close (r : list Regex.item) (s : string) (st : Regex.caps) :
  RegexSub.run (Regex.Close :: r) s st = RegexSub.run r s (Regex.close st).
Proof. reflexivity. Qed.

Lemma sub_run_one (p : ascii -> bool) (r : list Regex.item) (c : ascii)
    (s : string) (st : Regex.caps) :
  RegexSub.run (Regex.Cls p Regex.One :: r) (String c s) st
  = if p c then RegexSub.run r s (Regex.push c st) else None.
Proof. reflexivity. Qed.

Lemma sub_run_star (p : ascii -> bool) (r : list Regex.item) (s : string)
    (st : Regex.caps) :
  RegexSub.run (Regex.Cls p Regex.Star :: r) s st
  = RegexSub.star p (RegexSub.run r) s st.
Proof. reflexivity. Qed.

Lemma sub_run_plus (p : ascii -> bool) (r : list Regex.item) (c : ascii)
    (s : string) (st : Regex.caps) :
  RegexSub.run (Regex.Cls p Regex.Plus :: r) (String c s) st
  = if p c then RegexSub.star p (RegexSub.run r) s (Regex.push c st) else None.
Proof. reflexivity. Qed.

(** The point pattern at the start of digits, a dot, white space and a rest
    that does not start with white space. *)
Lemma point_pattern_exact (digits spaces rest : string) :
  Str.truthy digits = true -> Str.all Js.is_digit digits = true ->
  Str.all Js.is_whitespace spaces = true ->
  starts_with Js.is_whitespace rest = false ->
  RegexSub.run Notes.point_pattern (digits ++ String "." (spaces ++ rest))
    Regex.no_caps
  = Some ([digits ++ String "." spaces], rest).
Proof.
  intros Hne Hd Hs Hstart.
  destruct digits as [|d ds]; [discriminate|].
  cbn [Str.all] in Hd. apply andb_prop in Hd as [Hd Hds].
  unfold Notes.point_pattern.
  rewrite app_cons, sub_run_open, sub_run_plus, Hd.
  apply sub_star_longest; [exact Hds | reflexivity |].
  rewrite sub_run_one. change (Regex.chr "." ".") with true. cbn iota.
  rewrite sub_run_star.
  apply sub_star_longest; [exact Hs | exact Hstart |].
  rewrite sub_run_close. cbn [RegexSub.run].
  rewrite !pushes_eq. unfold Regex.push, Regex.open, Regex.close. cbn.
  rewrite !app_nil_l, !app_cons, !app_nil_l, app_snoc. reflexivity.
Qed.

(** The label pattern at the start of the same, when the rest is a label
    without colon and a colon. *)
Lemma label_pattern_exact (digits spaces label tail : string) :
  Str.truthy digits = true -> Str.all Js.is_digit digits = true ->
  Str.all Js.is_whitespace spaces = true ->
  starts_with Js.is_whitespace label = false ->
  Str.truthy label = true -> Str.all Js.is_not_colon label = true ->
  RegexSub.run Notes.label_pattern
    (digits ++ String "." (spaces ++ label ++ String ":" tail)) Regex.no_caps
  = Some ([digits ++ String "." spaces; label], tail).
Proof.
  intros Hne Hd Hs Hstart Hlne Hl.
  destruct digits as [|d ds]; [discriminate|].
  destruct label as [|c l]; [discriminate|].
  cbn [Str.all] in Hd, Hl.
  apply andb_prop in Hd as [Hd Hds]. apply andb_prop in Hl as [Hc Hl].
  unfold Notes.label_pattern.
  rewrite app_cons, sub_run_open, sub_run_plus, Hd.
  apply sub_star_longest; [exact Hds | reflexivity |].
  rewrite sub_run_one. change (Regex.chr "." ".") with true. cbn iota.
  rewrite sub_run_star.
  apply sub_star_longest; [exact Hs | now rewrite app_cons |].
  rewrite sub_run_close, sub_run_open, app_cons, sub_run_plus, Hc.
  apply sub_star_longest; [exact Hl | reflexivity |].
  rewrite sub_run_close, sub_run_one.
  change (Regex.chr ":" ":") with true. cbn iota. cbn [RegexSub.run].
  rewrite !pushes_eq. unfold Regex.push, Regex.open, Regex.close. cbn.
  rewrite !app_nil_l, !app_cons, !app_nil_l, app_snoc. reflexivity.
Qed.

Lemma length_app (a b : string) :
  String.length (a ++ b) = String.length a + String.length b.
Proof.
  induction a as [|c a IH]; [reflexivity|]. rewrite app_cons.
  cbn [String.length]. now rewrite IH.
Qed.

Lemma replace_all_skip (its : list Regex.item) (repl : list string -> string)
    (w rest : string) :
  RegexSub.replace_all its repl (String.length w) (w ++ rest)
  = RegexSub.replace_all its repl 0 rest.
Proof.
  induction w as [|c w IH]; [reflexivity|]. rewrite app_cons.
  cbn [String.length RegexSub.replace_all]. exact IH.
Qed.

(** A match at the start gives way to its replacement, and the replacing
    goes on behind it. *)
Lemma replace_all_match (its : list Regex.item) (repl : list string -> string)
    (c : ascii) (w rest : string) (g : list string) :
  RegexSub.run its (String c w ++ rest) Regex.no_caps = Some (g, rest) ->
  RegexSub.replace_all its repl 0 (String c w ++ rest)
  = repl g ++ RegexSub.replace_all its repl 0 rest.
Proof.
  intros Hrun. rewrite app_cons in *. cbn [RegexSub.replace_all]. rewrite Hrun.
  cbn [String.length]. rewrite length_app.
  replace (S (String.length w + String.length rest) - String.length rest)
    with (S (String.length w)) by lia.
  cbn [Nat.eqb]. f_equal.
  replace (S (String.length w) - 1) with (String.length w) by lia.
  apply replace_all_skip.
Qed.

Lemma line_point_after_digits (repl : list string -> string)
    (digits s : string) :
  Str.all Js.is_digit digits = true ->
  RegexSub.replace_all Notes.line_point_pattern repl 0 (digits ++ s)
  = digits ++ RegexSub.replace_all Notes.line_point_pattern repl 0 s.
Proof.
  intros Hd. induction digits as [|d ds IH]; [reflexivity|].
  cbn [Str.all] in Hd. apply andb_prop in Hd as [Hd Hds].
  rewrite !app_cons. cbn [RegexSub.replace_all].
  unfold Notes.line_point_pattern at 1. rewrite sub_run_one.
  assert (Hnl : Regex.chr Js.newline d = false).
  { destruct (Regex.chr Js.newline d) eqn:E; [|reflexivity].
    apply eqc_true in E. subst d. discriminate. }
  rewrite Hnl. now rewrite (IH Hds).
Qed.

Lemma whitespace_digit_free (s : string) :
  Str.all Js.is_whitespace s = true -> digit_free s = true.
Proof.
  unfold digit_free. induction s as [|c s IH]; [reflexivity|].
  cbn [Str.all Str.any]. intros H. apply andb_prop in H as [Hc Hs].
  apply negb_true_iff. apply negb_true_iff in IH; [|exact Hs]. rewrite IH.
  destruct (Js.is_digit c) eqn:E; [|reflexivity].
  apply digit_not_whitespace in E. congruence.
Qed.

Lemma digit_free_app (a b : string) :
  digit_free (a ++ b) = digit_free a && digit_free b.
Proof. unfold digit_free. rewrite any_app. apply negb_orb. Qed.

Lemma digit_free_cons (c : ascii) (s : string) :
  digit_free (String c s) = negb (Js.is_digit c) && digit_free s.
Proof. unfold digit_free. cbn [Str.any]. apply negb_orb. Qed.

(** The formatter on a single labelled point. *)
Lemma format_labelled_point
    (digits spaces label tail : string) :
  Str.truthy digits = true -> Str.all Js.is_digit digits = true ->
  Str.all Js.is_whitespace spaces = true ->
  starts_with Js.is_whitespace label = false ->
  Str.truthy label = true -> Str.all Js.is_not_colon label = true ->
  digit_free label = true -> digit_free tail = true ->
  Notes.formatGeneralNotes
    (Some (digits ++ String "." (spaces ++ label ++ String ":" tail)))
  = digits ++ String "." (spaces ++ "**" ++ label ++ ":**" ++ tail).
Proof.
  intros Hne Hd Hs Hstart Hlne Hl Hlfree Htfree.
  set (rest := label ++ String ":" tail).
  assert (Hrest : digit_free rest = true).
  { unfold rest. rewrite digit_free_app, digit_free_cons, Hlfree, Htfree.
    reflexivity. }
  assert (Hrstart : starts_with Js.is_whitespace rest = false).
  { unfold rest. destruct label; [discriminate | exact Hstart]. }
  destruct digits as [|d ds] eqn:Edigits; [discriminate|].
  rewrite <- Edigits in *.
  assert (Hd0 : Js.is_whitespace d = false).
  { rewrite Edigits in Hd. cbn [Str.all] in Hd.
    apply andb_prop in Hd as [Hd _]. now apply digit_not_whitespace. }
  unfold Notes.formatGeneralNotes.
  replace (Str.is_empty (digits ++ String "." (spaces ++ rest))) with false
    by (rewrite Edigits; reflexivity).
  (* the points are set on lines of their own *)
  assert (H1 : RegexSub.replace_all Notes.point_pattern
                 (fun g => Notes.nl ++ Notes.group 1 g) 0
                 (digits ++ String "." (spaces ++ rest))
               = String Js.newline (digits ++ String "." (spaces ++ rest))).
  { replace (digits ++ String "." (spaces ++ rest))
      with (String d (ds ++ String "." spaces) ++ rest) at 1
      by (rewrite Edigits; str_norm; reflexivity).
    rewrite (replace_all_match _ _ _ _ _ [digits ++ String "." spaces]).
    - rewrite (replace_all_no_match Notes.point_pattern _ digit_free
                 digit_free_tail point_pattern_needs_digit _ Hrest).
      change (Notes.group 1 [digits ++ String "." spaces])
        with (digits ++ String "." spaces).
      unfold Notes.nl. rewrite ?Edigits. str_norm. reflexivity.
    - rewrite <- (point_pattern_exact digits spaces rest Hne Hd Hs Hrstart).
      f_equal. rewrite Edigits. str_norm. reflexivity. }
  rewrite H1.
  (* the line feed before the first point goes *)
  assert (H2 : Notes.trimStart
                 (String Js.newline (digits ++ String "." (spaces ++ rest)))
               = digits ++ String "." (spaces ++ rest)).
  { unfold Notes.trimStart. cbn [Str.drop_while].
    change (Js.is_whitespace Js.newline) with true. cbn iota.
    rewrite Edigits, app_cons. cbn [Str.drop_while]. now rewrite Hd0. }
  rewrite H2.
  (* the label is set between stars *)
  assert (H3 : RegexSub.replace_all Notes.label_pattern
                 (fun g => Notes.group 1 g ++ "**" ++ Notes.group 2 g ++ ":**")
                 0 (digits ++ String "." (spaces ++ rest))
               = digits ++ String "." (spaces ++ "**" ++ label ++ ":**" ++ tail)).
  { replace (digits ++ String "." (spaces ++ rest))
      with (String d (ds ++ String "." (spaces ++ label ++ ":")) ++ tail) at 1
      by (unfold rest; rewrite Edigits; str_norm; reflexivity).
    rewrite (replace_all_match _ _ _ _ _ [digits ++ String "." spaces; label]).
    - rewrite (replace_all_no_match Notes.label_pattern _ digit_free
                 digit_free_tail label_pattern_needs_digit _ Htfree).
      change (Notes.group 1 [digits ++ String "." spaces; label])
        with (digits ++ String "." spaces).
      change (Notes.group 2 [digits ++ String "." spaces; label]) with label.
      rewrite ?Edigits. str_norm. reflexivity.
    - rewrite <- (label_pattern_exact digits spaces label tail
                    Hne Hd Hs Hstart Hlne Hl).
      f_equal. rewrite Edigits. str_norm. reflexivity. }
  rewrite H3.
  (* no point stands after a line feed *)
  rewrite (line_point_after_digits _ _ _ Hd).
  rewrite (replace_all_no_match Notes.line_point_pattern _ digit_free
             digit_free_tail line_point_pattern_needs_digit); [reflexivity|].
  rewrite digit_free_cons, !digit_free_app, (whitespace_digit_free _ Hs),
    Hlfree, Htfree. reflexivity.
Qed.

(** X18. A single numbered point with a label (digits, a dot, white space,
    a label without colon, a colon, a tail; label and tail without digit,
    the label not starting with white space) comes out with its label and
    colon between two pairs of stars and nothing else changed; a label that
    has its stars already gets a second pair. *)
Theorem formatGeneralNotes_labelled_point
    (digits spaces label tail : string) :
  Str.truthy digits = true -> Str.all Js.is_digit digits = true ->
  Str.all Js.is_whitespace spaces = true ->
  starts_with Js.is_whitespace label = false ->
  Str.truthy label = true -> Str.all Js.is_not_colon label = true ->
  digit_free label = true -> digit_free tail = true ->
  Notes.formatGeneralNotes
    (Some (digits ++ String "." (spaces ++ label ++ String ":" tail)))
  = digits ++ String "." (spaces ++ "**" ++ label ++ ":**" ++ tail).
Proof. exact (format_labelled_point digits spaces label tail). Qed.

Lemma formatGeneralNotes_labelled_point_witness :
  Notes.formatGeneralNotes (Some "1. **Portion Control:** Use smaller plates")
  = "1. ****Portion Control:**** Use smaller plates".
Proof.
  apply (formatGeneralNotes_labelled_point "1" " " "**Portion Control"
           "** Use smaller plates"); reflexivity.
Defined.

(** *** The display of the notes *)

Lemma parse_is_map (text : string) :
  Js.parseListToStructured (Some text)
  = map Js.item_of_line (Js.nonblank_lines text).
Proof.
  unfold Js.parseListToStructured. destruct text as [|c text]; [reflexivity|].
  cbn [Str.is_empty]. apply push_all.
Qed.

Lemma split_digit_free (sep : ascii) (s : string) :
  digit_free s = true ->
  Forall (fun line => digit_free line = true) (Str.split sep s).
Proof.
  induction s as [|c s IH]; intros H.
  - repeat constructor.
  - cbn [Str.split]. rewrite digit_free_cons in H.
    apply andb_prop in H as [Hc Hs]. specialize (IH Hs).
    destruct (Str.eqc c sep).
    + constructor; [reflexivity | exact IH].
    + destruct (Str.split sep s) as [|piece pieces].
      * repeat constructor. now rewrite digit_free_cons, Hc.
      * inversion IH as [|? ? Hp Hps]; subst. constructor; [|exact Hps].
        now rewrite digit_free_cons, Hc, Hp.
Qed.

Lemma item_of_line_digit_free (line : string) :
  digit_free line = true -> Js.item_of_line line = content_only line.
Proof.
  intros H. unfold Js.item_of_line.
  assert (Hno : Js.str_match line Js.numbered_pattern = None).
  { unfold Js.str_match, Regex.match_start, Js.numbered_pattern.
    destruct line as [|c s]; [reflexivity|]. cbn [Regex.run].
    now rewrite (digit_free_head _ _ H). }
  now rewrite Hno.
Qed.

Lemma items_digit_free (text : string) :
  digit_free text = true ->
  Js.parseListToStructured (Some text)
  = map content_only (Js.nonblank_lines text).
Proof.
  intros H. rewrite parse_is_map. apply map_ext_in. intros line Hin.
  apply item_of_line_digit_free.
  apply list_elem_of_In in Hin. unfold Js.nonblank_lines in Hin.
  apply list_elem_of_filter in Hin as [_ Hin].
  pose proof (split_digit_free Js.newline text H) as Hall.
  rewrite Forall_forall in Hall. now apply Hall.
Qed.

(** X20. Notes without digit are displayed line by line: one item per
    non-blank line of the notes (after the white space at their start is
    gone), each with the trimmed line as its only field; nothing at all is
    rendered when no line is left. *)
Theorem GeneralNotesDisplay_without_digit (notes : string) :
  Str.any Js.is_digit notes = false ->
  Notes.GeneralNotesDisplay (Some notes)
  = match map content_only (Js.nonblank_lines (Notes.trimStart notes)) with
    | [] => None
    | items => Some items
    end.
Proof.
  intros H. unfold Notes.GeneralNotesDisplay.
  rewrite (format_without_digit _ H).
  rewrite items_digit_free.
  - now destruct (map content_only (Js.nonblank_lines (Notes.trimStart notes))).
  - apply digit_free_drop_while. unfold digit_free. now rewrite H.
Qed.

Lemma GeneralNotesDisplay_without_digit_witness :
  Notes.GeneralNotesDisplay (Some "  Rest well")
  = match map content_only (Js.nonblank_lines (Notes.trimStart "  Rest well")) with
    | [] => None
    | items => Some items
    end.
Proof.
  apply (GeneralNotesDisplay_without_digit "  Rest well"). reflexivity.
Defined.

(** X19. A single numbered point with a label is displayed as one item: the
    digits and the dot as its number, the label as its title, the trimmed
    body as its content. The stars of a label that came with stars stay in
    the title, and the stars that closed it lead the content. *)
Theorem GeneralNotesDisplay_labelled_point
    (digits spaces label spaces' body : string) :
  Str.truthy digits = true -> Str.all Js.is_digit digits = true ->
  Str.all Js.is_whitespace spaces = true ->
  Str.any (Str.eqc Js.newline) spaces = false ->
  starts_with Js.is_whitespace label = false ->
  Str.truthy label = true -> Str.all Js.is_not_colon label = true ->
  Str.all Js.is_dot label = true -> digit_free label = true ->
  Str.all Js.is_whitespace spaces' = true -> Str.all Js.is_dot spaces' = true ->
  starts_with Js.is_whitespace body = false ->
  Str.truthy body = true -> Str.all Js.is_dot body = true ->
  digit_free body = true ->
  Notes.GeneralNotesDisplay
    (Some (digits ++ String "." (spaces ++ label ++ String ":" (spaces' ++ body))))
  = Some [{| Js.number := Some (digits ++ ".");
             Js.title := Some label;
             Js.content := Js.trim body |}].
Proof.
  intros Hne Hd Hs Hsnl Hstart Hlne Hl Hldot Hlfree Hs' Hs'dot Hbstart Hbne Hb
    Hbfree.
  unfold Notes.GeneralNotesDisplay.
  rewrite (format_labelled_point digits spaces label (spaces' ++ body)
             Hne Hd Hs Hstart Hlne Hl Hlfree).
  2:{ now rewrite digit_free_app, (whitespace_digit_free _ Hs'), Hbfree. }
  replace (digits ++ String "." (spaces ++ "**" ++ label ++ ":**" ++ spaces' ++ body))
    with (digits ++ String "." (spaces ++
            String "*" (String "*" (label ++ String ":" (String "*"
              (String "*" (spaces' ++ body)))))))
    by (str_norm; reflexivity).
  rewrite (titled_point_items digits spaces label spaces' body); try assumption.
  reflexivity.
Qed.

Lemma GeneralNotesDisplay_labelled_point_witness :
  Notes.GeneralNotesDisplay (Some "1. **Portion Control:** Use smaller plates")
  = Some [{| Js.number := Some "1.";
             Js.title := Some "**Portion Control";
             Js.content := Js.trim "** Use smaller plates" |}].
Proof.
  apply (GeneralNotesDisplay_labelled_point "1" " " "**Portion Control" ""
           "** Use smaller plates"); reflexivity.
Defined.

End NotesFacts.

(** ** The profile card: when the BMI shows *)

Module CardMore.

Import JsRef.

Lemma guard_needs_weight (StringToNumber : string -> float)
    (profile : gmap string Js.value) :
  Js.bmi_guard StringToNumber profile = true ->
  is_Some (profile !! "weight_lbs").
Proof.
  unfold Js.bmi_guard, Js.prop. intros H. apply andb_prop in H as [H _].
  destruct (profile !! "weight_lbs"); [now eexists | discriminate].
Qed.

(** X21. Whenever the guard of the BMI holds, the card is the grid and not
    the placeholder of an empty profile, and the grid has the BMI item with
    the quotient formatted to one digit, provided the formatting never
    yields the empty string. *)
Theorem bmi_item_shown (StringToNumber : string -> float)
    (toFixed : float -> nat -> string) (profile : gmap string Js.value) :
  (forall x digits, Str.truthy (toFixed x digits) = true) ->
  Js.bmi_guard StringToNumber profile = true ->
  Js.UserProfileCard StringToNumber toFixed (Some profile)
  = Js.ProfileGrid
      (Some (toFixed (Js.bmi_quotient StringToNumber profile) 1)).
Proof.
  intros Hfixed Hguard. unfold Js.UserProfileCard.
  destruct (Nat.eqb_spec (size profile) 0) as [Hsize|_].
  - apply map_size_empty_iff in Hsize. subst profile.
    destruct (guard_needs_weight _ _ Hguard) as [x Hx].
    now rewrite lookup_empty in Hx.
  - unfold Js.bmi. rewrite Hguard. now rewrite Hfixed.
Qed.

Lemma bmi_item_shown_witness :
  Js.UserProfileCard (fun _ => PrimFloat.nan) (fun _ _ => "21.5")
    (Some (<["weight_lbs" := Js.Number 150%float]>
             {["height_inches" := Js.Number 70%float]}))
  = Js.ProfileGrid
      (Some ((fun (_ : float) (_ : nat) => "21.5")
               (Js.bmi_quotient (fun _ => PrimFloat.nan)
                  (<["weight_lbs" := Js.Number 150%float]>
                     {["height_inches" := Js.Number 70%float]})) 1)).
Proof.
  apply (bmi_item_shown (fun _ => PrimFloat.nan) (fun _ _ => "21.5")
           (<["weight_lbs" := Js.Number 150%float]>
              {["height_inches" := Js.Number 70%float]})).
  - reflexivity.
  - vm_compute. reflexivity.
Defined.

End CardMore.
